(** * Squarespace export conversion: reconciler, scorer, extractor, sanitizer, resolver

    A shallow embedding of the Python scripts that turn a WordPress-style
    export into CSV tables:

    - [merge_attachments_corrected.py]: [get_filename], [simplify_text],
      [check_match_quality], [merge_attachments_corrected];
    - [merge_attachments.py]: [merge_attachments_to_posts];
    - [create_formatted_csv.py]: [merge_with_attachments],
      [parse_xml_with_formatting], [clean_html_preserve_formatting];
    - [xml_to_csv_converter.py]: [parse_xml_file], [clean_html];
    - [scrape_images_v2.py], [scrape_images.py]: [get_header_image].

    Python strings are modelled as [string]: a character is a code point
    below 256.  Table rows, which the scripts hold as dictionaries with a
    fixed set of keys, are records. *)

From Stdlib Require Import Bool Arith List Ascii String NArith Lia.
Import ListNotations.
Open Scope string_scope.

(** ** Python string primitives *)

Definition code (c : ascii) : N := N_of_ascii c.

Definition in_range (lo hi : N) (c : ascii) : bool :=
  ((lo <=? code c) && (code c <=? hi))%N.

(** [str.lower] on one code point below 256: the ASCII capitals and the
    Latin-1 capitals (U+00C0..U+00DE except the multiplication sign) move
    up by 32; nothing else changes. *)
Definition lower_char (c : ascii) : ascii :=
  if in_range 65 90 c || (in_range 192 222 c && negb (code c =? 215)%N)
  then ascii_of_N (code c + 32)
  else c.

Fixpoint lower (s : string) : string :=
  match s with
  | EmptyString => EmptyString
  | String c s' => String (lower_char c) (lower s')
  end.

(** The character class [\d]. *)
Definition is_digit (c : ascii) : bool := in_range 48 57 c.

(** The character class [[a-z0-9]]. *)
Definition is_az09 (c : ascii) : bool := in_range 97 122 c || in_range 48 57 c.

Fixpoint keep_chars (p : ascii -> bool) (s : string) : string :=
  match s with
  | EmptyString => EmptyString
  | String c s' => if p c then String c (keep_chars p s') else keep_chars p s'
  end.

Fixpoint all_chars (p : ascii -> bool) (s : string) : bool :=
  match s with
  | EmptyString => true
  | String c s' => p c && all_chars p s'
  end.

(** [s.startswith(p)]. *)
Definition startswith (s p : string) : bool := String.prefix p s.

(** [sub in s]. *)
Fixpoint str_in (sub s : string) : bool :=
  startswith s sub ||
  match s with
  | EmptyString => false
  | String _ s' => str_in sub s'
  end.

(** Truth value of a string: [if s] holds when [s] is not empty. *)
Definition truthy (s : string) : bool :=
  match s with EmptyString => false | _ => true end.

(** [s.split(sep)] for a one-character separator. *)
Fixpoint split_on (sep : ascii) (cur s : string) : list string :=
  match s with
  | EmptyString => [cur]
  | String c s' =>
      if Ascii.eqb c sep then cur :: split_on sep EmptyString s'
      else split_on sep (cur ++ String c EmptyString) s'
  end.

Definition split (sep : ascii) (s : string) : list string := split_on sep EmptyString s.

Definition newline : ascii := "010"%char.

(** The double quote. *)
Definition dquote : ascii := "034"%char.

(** ** The regular expressions of the scorer *)

(** [.*$]: a run without newline that reaches the end of the subject, or
    the newline that ends it.  The result is what stays unmatched. *)
Fixpoint dotstar_eol (s : string) : option string :=
  match s with
  | EmptyString => Some EmptyString
  | String c s' =>
      if Ascii.eqb c newline
      then (if truthy s' then None else Some s)
      else dotstar_eol s'
  end.

(** [s = p ++ rest]: what follows the literal [p] at the start of [s]. *)
Fixpoint after_prefix (p s : string) : option string :=
  match p, s with
  | EmptyString, _ => Some s
  | String a p', String b s' => if Ascii.eqb a b then after_prefix p' s' else None
  | String _ _, EmptyString => None
  end.

Definition image_exts : list string := ["jpg"; "jpeg"; "png"; "gif"; "webp"].

Fixpoint match_alt_eol (alts : list string) (s : string) : option string :=
  match alts with
  | [] => None
  | a :: alts' =>
      match after_prefix a s with
      | Some rest =>
          match dotstar_eol rest with
          | Some r => Some r
          | None => match_alt_eol alts' s
          end
      | None => match_alt_eol alts' s
      end
  end.

(** [\.(jpg|jpeg|png|gif|webp).*$] matched at the start of [s]. *)
Definition match_ext (s : string) : option string :=
  match s with
  | String "."%char s' => match_alt_eol image_exts s'
  | _ => None
  end.

(** [re.sub(r'\.(jpg|jpeg|png|gif|webp).*$', '', s)]: the leftmost match is
    removed; it runs to the end, so no second match follows. *)
Fixpoint sub_ext (s : string) : string :=
  match match_ext s with
  | Some r => r
  | None =>
      match s with
      | EmptyString => EmptyString
      | String c s' => String c (sub_ext s')
      end
  end.

(** [re.findall(r'[a-z0-9]{3,}', s)]: the maximal runs of the class that
    are three characters or longer. *)
Definition flush (cur : string) : list string :=
  if (3 <=? String.length cur)%nat then [cur] else [].

Fixpoint runs (cur s : string) : list string :=
  match s with
  | EmptyString => flush cur
  | String c s' =>
      if is_az09 c then runs (cur ++ String c EmptyString) s'
      else (flush cur ++ runs EmptyString s')%list
  end.

Definition findall_words (s : string) : list string := runs EmptyString s.

(** ** The match-quality scorer ([merge_attachments_corrected.py]) *)

Section Scorer.

(** [urlparse(url).path] of the standard library, which the scripts call
    and do not define.  It is taken as a function that returns: the
    library raises only on a URL whose bracketed host name is malformed. *)
Variable url_path : string -> string.

Definition get_filename (url : string) : string :=
  if negb (truthy url) then EmptyString
  else
    let path := url_path url in
    let filename := last (split "/"%char path) EmptyString in
    sub_ext (lower filename).

Definition simplify_text (text : string) : string := keep_chars is_az09 (lower text).

Definition generic_names : list string :=
  [ "blog_black"; "blog_white"; "blog_red"; "blog_blue"; "blog_green";
    "blog"; "image"; "img"; "unsplash"; "photo"; "untitled";
    "attachment"; "screen"; "title+slide"; "title" ].

(** The [for generic in generic_names] loop: the first name the file name
    equals, or starts with followed by an underscore. *)
Fixpoint find_generic (names : list string) (filename_lower : string) : option string :=
  match names with
  | [] => None
  | generic :: names' =>
      if String.eqb filename_lower generic || startswith filename_lower (generic ++ "_")
      then Some generic
      else find_generic names' filename_lower
  end.

(** [sum(1 for fw in filename_words for tw in title_words if fw in tw or tw in fw)]. *)
Definition count_matches (filename_words title_words : list string) : nat :=
  List.length
    (flat_map
       (fun fw => filter (fun tw => str_in fw tw || str_in tw fw) title_words)
       filename_words).

(** The code after the exact-match test. *)
Definition partial_match (simple_title simple_filename : string) : nat * bool * string :=
  let no_match := (2, true, "No match - likely stock photo") in
  if (5 <=? String.length simple_filename)%nat then
    let title_words := findall_words simple_title in
    let filename_words := findall_words simple_filename in
    let matches := count_matches filename_words title_words in
    if (2 <=? matches)%nat then (8, false, "Partial match")
    else if (1 <=? matches)%nat then (5, true, "Weak match - verify")
    else no_match
  else no_match.

(** Returns [(match_score, needs_review, reason)]. *)
Definition check_match_quality (title filename : string) : nat * bool * string :=
  if negb (truthy filename) then (0, true, "No image")
  else
    let filename_lower := lower filename in
    match find_generic generic_names filename_lower with
    | Some generic => (1, true, "Generic image (" ++ generic ++ ")")
    | None =>
        let simple_title := simplify_text title in
        let simple_filename := simplify_text filename in
        if str_in simple_filename simple_title || str_in simple_title simple_filename
        then (10, false, "Good match")
        else partial_match simple_title simple_filename
    end.

End Scorer.

(** The components of the scorer's result. *)
Definition score_of (q : nat * bool * string) : nat := fst (fst q).
Definition needs_review_of (q : nat * bool * string) : bool := snd (fst q).
Definition reason_of (q : nat * bool * string) : string := snd q.

(** ** Table rows *)

(** A row of the cleaned table ([squarespace-export-cleaned.csv]), and
    equally one entry of the list the extractors return. *)
Record row := mk_row {
  post_id : string;
  title : string;
  post_type : string;
  post_date : string;
  category : string;
  link : string;
  excerpt : string;
  content : string;
  attachment_url : string
}.

(** Rows of the merged table without review columns, as
    [merge_attachments_to_posts] and [merge_with_attachments] produce them. *)
Module Plain.
Record merged_post := mk {
  post_id : string;
  title : string;
  post_type : string;
  post_date : string;
  category : string;
  link : string;
  excerpt : string;
  content : string;
  attachment_url : string;
  attachment_id : string
}.
End Plain.

(** Rows of the annotated table, as [merge_attachments_corrected] produces them. *)
Module Merged.
Record merged_post := mk {
  post_id : string;
  title : string;
  post_type : string;
  post_date : string;
  category : string;
  link : string;
  excerpt : string;
  content : string;
  attachment_url : string;
  attachment_id : string;
  attachment_filename : string;
  needs_review : string;
  review_reason : string
}.
End Merged.

(** The eight fields a merged row copies from its content record. *)
Definition content_fields := (string * string * string * string * string * string * string * string)%type.

Definition row_fields (r : row) : content_fields :=
  (post_id r, title r, post_type r, post_date r, category r, link r, excerpt r, content r).

Definition plain_fields (m : Plain.merged_post) : content_fields :=
  (Plain.post_id m, Plain.title m, Plain.post_type m, Plain.post_date m,
   Plain.category m, Plain.link m, Plain.excerpt m, Plain.content m).

Definition merged_fields (m : Merged.merged_post) : content_fields :=
  (Merged.post_id m, Merged.title m, Merged.post_type m, Merged.post_date m,
   Merged.category m, Merged.link m, Merged.excerpt m, Merged.content m).

(** [row['post_type'] in ['post', 'page']]. *)
Definition is_content (r : row) : bool :=
  String.eqb (post_type r) "post" || String.eqb (post_type r) "page".

(** [row['post_type'] == 'attachment']. *)
Definition is_attachment (r : row) : bool := String.eqb (post_type r) "attachment".

(** ** Cursor loops *)

(** [while guard: body] over a state: [body] is [None] when the guard is
    false.  The result is [None] only when [fuel] iterations did not reach
    the exit. *)
Fixpoint while_loop {S : Type} (body : S -> option S) (fuel : nat) (s : S) : option S :=
  match body s with
  | None => Some s
  | Some s' =>
      match fuel with
      | O => None
      | Datatypes.S fuel' => while_loop body fuel' s'
      end
  end.

(** ** The corrected reconciler ([merge_attachments_corrected.py]) *)

Section Reconciler.

Variable url_path : string -> string.

(** The merged row of a content row and the attachment row after it. *)
Definition paired_post (r next_row : row) : Merged.merged_post :=
  let attachment_url := attachment_url next_row in
  let attachment_id := post_id next_row in
  let filename := get_filename url_path attachment_url in
  let '(match_score, needs_review, reason) := check_match_quality (title r) filename in
  {| Merged.post_id := post_id r;
     Merged.title := title r;
     Merged.post_type := post_type r;
     Merged.post_date := post_date r;
     Merged.category := category r;
     Merged.link := link r;
     Merged.excerpt := excerpt r;
     Merged.content := content r;
     Merged.attachment_url := attachment_url;
     Merged.attachment_id := attachment_id;
     Merged.attachment_filename := filename;
     Merged.needs_review := if needs_review then "YES" else "NO";
     Merged.review_reason := reason |}.

(** The merged row of a content row without attachment. *)
Definition unpaired_post (r : row) : Merged.merged_post :=
  {| Merged.post_id := post_id r;
     Merged.title := title r;
     Merged.post_type := post_type r;
     Merged.post_date := post_date r;
     Merged.category := category r;
     Merged.link := link r;
     Merged.excerpt := excerpt r;
     Merged.content := content r;
     Merged.attachment_url := "";
     Merged.attachment_id := "";
     Merged.attachment_filename := "";
     Merged.needs_review := "YES";
     Merged.review_reason := "No image" |}.

(** One iteration of the [while i < len(rows)] loop on the state
    [(i, merged_posts)]. *)
Definition corrected_body (rows : list row) (st : nat * list Merged.merged_post)
  : option (nat * list Merged.merged_post) :=
  let '(i, merged_posts) := st in
  match nth_error rows i with
  | None => None
  | Some r =>
      if is_content r then
        match nth_error rows (i + 1) with
        | Some next_row =>
            if is_attachment next_row
            then Some (i + 2, (merged_posts ++ [paired_post r next_row])%list)
            else Some (i + 1, (merged_posts ++ [unpaired_post r])%list)
        | None => Some (i + 1, (merged_posts ++ [unpaired_post r])%list)
        end
      else Some (i + 1, merged_posts)
  end.

(** The rows written to the merged table, which the function also returns. *)
Definition merge_attachments_corrected (rows : list row) : option (list Merged.merged_post) :=
  option_map snd (while_loop (corrected_body rows) (List.length rows) (0, [])).

(** The same pass by recursion on the rows that remain after the cursor. *)
Fixpoint pair_following (rows : list row) : list Merged.merged_post :=
  match rows with
  | [] => []
  | r :: rest =>
      if is_content r then
        match rest with
        | next_row :: rest' =>
            if is_attachment next_row
            then paired_post r next_row :: pair_following rest'
            else unpaired_post r :: pair_following rest
        | [] => [unpaired_post r]
        end
      else pair_following rest
  end.

End Reconciler.

(** ** The reconciler of the formatted pipeline ([create_formatted_csv.py]) *)

(** [post] after [post['attachment_url'] = u; post['attachment_id'] = a]. *)
Definition with_attachment (post : row) (u a : string) : Plain.merged_post :=
  {| Plain.post_id := post_id post;
     Plain.title := title post;
     Plain.post_type := post_type post;
     Plain.post_date := post_date post;
     Plain.category := category post;
     Plain.link := link post;
     Plain.excerpt := excerpt post;
     Plain.content := content post;
     Plain.attachment_url := u;
     Plain.attachment_id := a |}.

(** One iteration of [while i < len(posts)] on the state [(i, merged)].
    Every entry of [posts] is a dictionary of its own and the loop writes
    only to the entry under the cursor, so each update is local to the
    emitted row. *)
Definition formatted_body (posts : list row) (st : nat * list Plain.merged_post)
  : option (nat * list Plain.merged_post) :=
  let '(i, merged) := st in
  match nth_error posts i with
  | None => None
  | Some post =>
      if is_content post then
        match nth_error posts (i + 1) with
        | Some attachment =>
            if is_attachment attachment
            then Some (i + 2, (merged ++ [with_attachment post (attachment_url attachment) (post_id attachment)])%list)
            else Some (i + 1, (merged ++ [with_attachment post "" ""])%list)
        | None => Some (i + 1, (merged ++ [with_attachment post "" ""])%list)
        end
      else Some (i + 1, merged)
  end.

Definition merge_with_attachments (posts : list row) : option (list Plain.merged_post) :=
  option_map snd (while_loop (formatted_body posts) (List.length posts) (0, [])).

Fixpoint attach_following (posts : list row) : list Plain.merged_post :=
  match posts with
  | [] => []
  | post :: rest =>
      if is_content post then
        match rest with
        | attachment :: rest' =>
            if is_attachment attachment
            then with_attachment post (attachment_url attachment) (post_id attachment) :: attach_following rest'
            else with_attachment post "" "" :: attach_following rest
        | [] => [with_attachment post "" ""]
        end
      else attach_following rest
  end.

(** ** The earlier reconciler ([merge_attachments.py]) *)

(** One iteration of [while i < len(rows)] on the state [(i, merged_posts)]:
    an attachment row followed by a content row gives one merged row and
    moves the cursor by two. *)
Definition earlier_body (rows : list row) (st : nat * list Plain.merged_post)
  : option (nat * list Plain.merged_post) :=
  let '(i, merged_posts) := st in
  match nth_error rows i with
  | None => None
  | Some r =>
      let fall_through :=
        if is_content r
        then Some (i + 1, (merged_posts ++ [with_attachment r "" ""])%list)
        else Some (i + 1, merged_posts) in
      if is_attachment r then
        match nth_error rows (i + 1) with
        | Some next_row =>
            if is_content next_row
            then Some (i + 2, (merged_posts ++ [with_attachment next_row (attachment_url r) (post_id r)])%list)
            else fall_through
        | None => fall_through
        end
      else fall_through
  end.

(** The rows written to the merged table; the function returns their number. *)
Definition merge_attachments_to_posts (rows : list row) : option (list Plain.merged_post) :=
  option_map snd (while_loop (earlier_body rows) (List.length rows) (0, [])).

(** ** The live image resolver ([scrape_images_v2.py], [scrape_images.py]) *)

(** What the resolver reads off a fetched page.  The page is parsed by
    BeautifulSoup, so the model starts from the answers of its queries:
    [img.get(name)] for the three attributes of an [img] element,
    [soup.select_one(selector)], and the two [soup.find('meta', ...)]
    queries with the [content] attribute of the element found. *)
Record img_tag := mk_img {
  data_src : option string;
  data_image : option string;
  src : option string
}.

Record soup := mk_soup {
  select_one : string -> option img_tag;
  og_image : option (option string);
  twitter_image : option (option string)
}.

(** Truth value of the result of [tag.get(name)]: [None] and the empty
    string are false. *)
Definition attr_truthy (v : option string) : bool :=
  match v with
  | Some s => truthy s
  | None => false
  end.

(** [a or b]. *)
Definition py_or (a b : option string) : option string :=
  if attr_truthy a then a else b.

(** [tag and tag.get('content')], then [tag['content']]. *)
Definition meta_content (tag : option (option string)) : option string :=
  match tag with
  | Some (Some c) => if truthy c then Some c else None
  | _ => None
  end.

Module ScrapeV2.
Section Resolver.

(** [urllib.parse.urljoin], which the script calls and does not define. *)
Variable urljoin : string -> string -> string.

Definition selectors : list string :=
  [ ".blog-item-top-wrapper img";
    "article .image-block img";
    ".blog-item-wrapper .sqs-block-image img";
    ".BlogItem-image img";
    "figure.blog-item-top-wrapper img";
    ".entry-header img";
    ".sqs-block-image-figure img" ].

(** The candidate of one [img] element:
    [img.get('data-src') or img.get('data-image') or img.get('src')]. *)
Definition candidate (img : img_tag) : option string :=
  py_or (py_or (data_src img) (data_image img)) (src img).

(** "Make sure it's a full URL". *)
Definition full_url (url img_url : string) : string :=
  if startswith img_url "//" then "https:" ++ img_url
  else if startswith img_url "/" then urljoin url img_url
  else img_url.

(** "Filter out tiny images (icons, logos, etc)". *)
Definition accepted (img_url : string) : bool :=
  negb (str_in "logo" (lower img_url)) && negb (str_in "icon" (lower img_url)).

(** The [for selector in selectors] loop; [None] when it ends without
    [return]. *)
Fixpoint try_selectors (page : soup) (url : string) (sels : list string) : option string :=
  match sels with
  | [] => None
  | selector :: sels' =>
      match select_one page selector with
      | Some img =>
          match candidate img with
          | Some img_url =>
              if truthy img_url then
                let img_url := full_url url img_url in
                if accepted img_url then Some img_url
                else try_selectors page url sels'
              else try_selectors page url sels'
          | None => try_selectors page url sels'
          end
      | None => try_selectors page url sels'
      end
  end.

(** [response] is [None] when the request or the parse raised, which the
    function catches to return [None]. *)
Definition get_header_image (response : option soup) (url : string) : option string :=
  match response with
  | None => None
  | Some page =>
      match try_selectors page url selectors with
      | Some img_url => Some img_url
      | None =>
          match meta_content (og_image page) with
          | Some c => Some c
          | None => meta_content (twitter_image page)
          end
      end
  end.

End Resolver.
End ScrapeV2.

Module ScrapeV1.

(** [if img and img.get('data-src'): return img['data-src']], then the
    same with [src]. *)
Definition first_source (img : option img_tag) : option string :=
  match img with
  | Some i =>
      if attr_truthy (data_src i) then data_src i
      else if attr_truthy (src i) then src i
      else None
  | None => None
  end.

Fixpoint try_methods (page : soup) (sels : list string) : option string :=
  match sels with
  | [] => None
  | selector :: sels' =>
      match first_source (select_one page selector) with
      | Some u => Some u
      | None => try_methods page sels'
      end
  end.

Definition get_header_image (response : option soup) : option string :=
  match response with
  | None => None
  | Some page =>
      match try_methods page
              [ ".blog-item-top-wrapper img";
                "article img, .sqs-block-image img";
                ".blog-item-content-wrapper img" ] with
      | Some u => Some u
      | None => meta_content (og_image page)
      end
  end.

End ScrapeV1.

(** ** Whitespace *)

(** The characters [str.strip] removes and [\s] matches, among code points
    below 256. *)
Definition is_space (c : ascii) : bool :=
  in_range 9 13 c || in_range 28 32 c || (code c =? 133)%N || (code c =? 160)%N.

Fixpoint lstrip (s : string) : string :=
  match s with
  | EmptyString => EmptyString
  | String c s' => if is_space c then lstrip s' else s
  end.

Fixpoint rstrip (s : string) : string :=
  match s with
  | EmptyString => EmptyString
  | String c s' =>
      match rstrip s' with
      | EmptyString => if is_space c then EmptyString else String c EmptyString
      | r => String c r
      end
  end.

Definition strip (s : string) : string := rstrip (lstrip s).

(** ** Markup trees *)

(** What BeautifulSoup builds from markup with [html.parser]: strings and
    tags with their attributes and children.

    The scripts do not define the parser; the definitions of this part
    follow the library on the markup the properties below speak of: text,
    start tags with attributes, end tags, and the named references [&amp;]
    [&lt;] [&gt;] [&quot;] [&apos;] [&nbsp;].  Comments, declarations,
    CDATA sections, numeric references and the raw text of [script] and
    [style] are outside the model. *)
#[warnings="-register-all"]
Inductive node : Type :=
  | Text (s : string)
  | Tag (name : string) (attrs : list (string * string)) (children : list node).

Inductive token : Type :=
  | TData (s : string)
  | TStart (name : string) (attrs : list (string * string)) (self_closing : bool)
  | TEnd (name : string).

Definition is_letter (c : ascii) : bool := in_range 65 90 c || in_range 97 122 c.

Definition is_alnum (c : ascii) : bool := is_letter c || is_digit c.

(** The characters BeautifulSoup calls [ASCII_SPACES]. *)
Definition is_ascii_space (c : ascii) : bool :=
  (code c =? 32)%N || (code c =? 10)%N || (code c =? 9)%N || (code c =? 12)%N || (code c =? 13)%N.

Definition char_in (c : ascii) (s : string) : bool :=
  negb (all_chars (fun x => negb (Ascii.eqb x c)) s).

Definition entity_text (name : string) : string :=
  if String.eqb name "amp" then "&"
  else if String.eqb name "lt" then "<"
  else if String.eqb name "gt" then ">"
  else if String.eqb name "quot" then String dquote EmptyString
  else if String.eqb name "apos" then "'"
  else if String.eqb name "nbsp" then String (ascii_of_N 160) EmptyString
  else "&" ++ name.

Section Sanitizer.

(** [html.unescape] on a string that holds an ampersand: the replacement
    of character references by the table of the standard library. *)
Variable replace_charrefs : string -> string.

(** [html.unescape]. *)
Definition unescape (s : string) : string :=
  if char_in "&"%char s then replace_charrefs s else s.

(** *** Attributes of a start tag *)

Inductive attr_state : Type :=
  | ABetween
  | AName (n : string)
  | AAfterName (n : string)
  | ABeforeValue (n : string)
  | AValue (n v : string) (quote : option ascii).

(** Setting a key of the attribute dictionary: a key met again keeps its
    place and takes the new value. *)
Fixpoint set_attr (k v : string) (attrs : list (string * string)) : list (string * string) :=
  match attrs with
  | [] => [(k, v)]
  | (k', v') :: rest =>
      if String.eqb k k' then (k, v) :: rest else (k', v') :: set_attr k v rest
  end.

Definition put (n v : string) (attrs : list (string * string)) : list (string * string) :=
  set_attr (lower n) (unescape v) attrs.

Definition one (c : ascii) : string := String c EmptyString.

Definition is_quote (c : ascii) : bool := Ascii.eqb c dquote || Ascii.eqb c "'"%char.

Fixpoint parse_attrs (st : attr_state) (attrs : list (string * string)) (s : string)
  : list (string * string) :=
  match s with
  | EmptyString =>
      match st with
      | ABetween => attrs
      | AName n | AAfterName n | ABeforeValue n => put n EmptyString attrs
      | AValue n v _ => put n v attrs
      end
  | String c s' =>
      match st with
      | ABetween =>
          if is_space c || Ascii.eqb c "/"%char then parse_attrs ABetween attrs s'
          else parse_attrs (AName (one c)) attrs s'
      | AName n =>
          if Ascii.eqb c "="%char then parse_attrs (ABeforeValue n) attrs s'
          else if is_space c then parse_attrs (AAfterName n) attrs s'
          else if Ascii.eqb c "/"%char then parse_attrs ABetween (put n EmptyString attrs) s'
          else parse_attrs (AName (n ++ one c)) attrs s'
      | AAfterName n =>
          if Ascii.eqb c "="%char then parse_attrs (ABeforeValue n) attrs s'
          else if is_space c then parse_attrs (AAfterName n) attrs s'
          else if Ascii.eqb c "/"%char then parse_attrs ABetween (put n EmptyString attrs) s'
          else parse_attrs (AName (one c)) (put n EmptyString attrs) s'
      | ABeforeValue n =>
          if is_space c || Ascii.eqb c "="%char then parse_attrs (ABeforeValue n) attrs s'
          else if is_quote c then parse_attrs (AValue n EmptyString (Some c)) attrs s'
          else parse_attrs (AValue n (one c) None) attrs s'
      | AValue n v (Some q) =>
          if Ascii.eqb c q then parse_attrs ABetween (put n v attrs) s'
          else parse_attrs (AValue n (v ++ one c) (Some q)) attrs s'
      | AValue n v None =>
          if is_space c then parse_attrs ABetween (put n v attrs) s'
          else parse_attrs (AValue n (v ++ one c) None) attrs s'
      end
  end.

(** *** Tokens *)

(** The tag name at the start of what stands between [<] and [>], and the
    rest. *)
Fixpoint tag_name (acc s : string) : string * string :=
  match s with
  | EmptyString => (acc, EmptyString)
  | String c s' =>
      if is_space c || Ascii.eqb c "/"%char then (acc, s)
      else tag_name (acc ++ one c) s'
  end.

Definition ends_with_slash (s : string) : bool :=
  match rstrip s with
  | EmptyString => false
  | r => Ascii.eqb (last (list_ascii_of_string r) " "%char) "/"%char
  end.

(** The token of [<raw>]. *)
Definition tag_token (raw : string) : token :=
  match raw with
  | String "/"%char rest => TEnd (lower (fst (tag_name EmptyString (lstrip rest))))
  | _ =>
      let '(name, rest) := tag_name EmptyString raw in
      TStart (lower name) (parse_attrs ABetween [] rest) (ends_with_slash raw)
  end.

(** [<] opens a tag when a letter follows, or a slash and a letter. *)
Definition opens_tag (s : string) : bool :=
  match s with
  | String c s' =>
      is_letter c ||
      (Ascii.eqb c "/"%char && match s' with String d _ => is_letter d | EmptyString => false end)
  | EmptyString => false
  end.

Definition opens_ref (s : string) : bool :=
  match s with
  | String c _ => is_letter c
  | EmptyString => false
  end.

Inductive lex_state : Type :=
  | InData
  | InTag (raw : string) (quote : option ascii)
  | InRef (name : string).

(** The strings between two tags reach the tree as one string. *)
Definition flush_data (data : string) : list token :=
  if truthy data then [TData data] else [].

(** One character read outside tags and references; [s'] is what follows. *)
Definition data_step (data : string) (c : ascii) (s' : string) : lex_state * string :=
  if Ascii.eqb c "<"%char then
    if opens_tag s' then (InTag EmptyString None, data) else (InData, data ++ "<")
  else if Ascii.eqb c "&"%char then
    if opens_ref s' then (InRef EmptyString, data) else (InData, data ++ "&")
  else (InData, data ++ one c).

Fixpoint lex (st : lex_state) (data s : string) : list token :=
  match s with
  | EmptyString =>
      match st with
      | InData => flush_data data
      | InTag raw _ => flush_data (data ++ "<" ++ raw)
      | InRef name => flush_data (data ++ "&" ++ name)
      end
  | String c s' =>
      match st with
      | InData => let '(st', data') := data_step data c s' in lex st' data' s'
      | InTag raw (Some q) =>
          lex (InTag (raw ++ one c) (if Ascii.eqb c q then None else Some q)) data s'
      | InTag raw None =>
          if Ascii.eqb c ">"%char
          then (flush_data data ++ tag_token raw :: lex InData EmptyString s')%list
          else lex (InTag (raw ++ one c) (if is_quote c then Some c else None)) data s'
      | InRef name =>
          if is_alnum c || Ascii.eqb c "-"%char || Ascii.eqb c "."%char
          then lex (InRef (name ++ one c)) data s'
          else if Ascii.eqb c ";"%char then lex InData (data ++ entity_text name) s'
          else let '(st', data') := data_step (data ++ entity_text name) c s' in lex st' data' s'
      end
  end.

Definition tokens (markup : string) : list token := lex InData EmptyString markup.

(** *** The tree builder *)

Record open_tag := mk_open {
  o_name : string;
  o_attrs : list (string * string);
  o_children : list node
}.

Definition void_tags : list string :=
  [ "area"; "base"; "br"; "col"; "embed"; "hr"; "img"; "input"; "keygen"; "link";
    "menuitem"; "meta"; "param"; "source"; "track"; "wbr"; "basefont"; "bgsound";
    "command"; "frame"; "image"; "isindex"; "nextid"; "spacer" ].

Definition name_in (name : string) (names : list string) : bool :=
  existsb (String.eqb name) names.

(** A string of ASCII spaces alone becomes one newline or one space,
    unless a [pre] or [textarea] element is open. *)
Definition normalise_data (preserve : bool) (s : string) : string :=
  if preserve then s
  else if all_chars is_ascii_space s
  then (if char_in newline s then one newline else " ")
  else s.

Definition preserves_space (stack : list open_tag) : bool :=
  existsb (fun o => name_in (o_name o) ["pre"; "textarea"]) stack.

(** Children are kept newest first while their parent is open. *)
Definition close_tag (o : open_tag) : node := Tag (o_name o) (o_attrs o) (rev (o_children o)).

Definition adopt (n : node) (o : open_tag) : open_tag :=
  mk_open (o_name o) (o_attrs o) (n :: o_children o).

Definition add_child (n : node) (root : list node) (stack : list open_tag)
  : list node * list open_tag :=
  match stack with
  | [] => (n :: root, [])
  | o :: rest => (root, adopt n o :: rest)
  end.

Definition node_name (n : node) : string :=
  match n with
  | Tag name _ _ => name
  | Text _ => EmptyString
  end.

(** [_popToTag(name)]: [n] is the element closed last. *)
Fixpoint pop_to (name : string) (n : node) (root : list node) (stack : list open_tag)
  : list node * list open_tag :=
  match stack with
  | [] => (n :: root, [])
  | o :: rest =>
      if String.eqb (node_name n) name then (root, adopt n o :: rest)
      else pop_to name (close_tag (adopt n o)) root rest
  end.

Fixpoint close_all (n : node) (root : list node) (stack : list open_tag) : list node :=
  match stack with
  | [] => n :: root
  | o :: rest => close_all (close_tag (adopt n o)) root rest
  end.

Fixpoint build (toks : list token) (root : list node) (stack : list open_tag) : list node :=
  match toks with
  | [] =>
      rev match stack with
          | [] => root
          | o :: rest => close_all (close_tag o) root rest
          end
  | TData s :: toks' =>
      let '(root', stack') :=
        add_child (Text (normalise_data (preserves_space stack) s)) root stack in
      build toks' root' stack'
  | TStart name attrs self_closing :: toks' =>
      if name_in name void_tags || self_closing then
        let '(root', stack') := add_child (Tag name attrs []) root stack in
        build toks' root' stack'
      else build toks' root (mk_open name attrs [] :: stack)
  | TEnd name :: toks' =>
      match stack with
      | o :: rest =>
          if name_in name (map o_name stack) then
            let '(root', stack') := pop_to name (close_tag o) root rest in
            build toks' root' stack'
          else build toks' root stack
      | [] => build toks' root stack
      end
  end.

(** [BeautifulSoup(markup, 'html.parser')]: the children of the document. *)
Definition parse_html (markup : string) : list node := build (tokens markup) [] [].

(** *** Reading the tree *)

(** The strings of the tree in document order. *)
Fixpoint strings (n : node) : list string :=
  match n with
  | Text s => [s]
  | Tag _ _ children => flat_map strings children
  end.

(** [separator.join(...)]. *)
Fixpoint join (sep : string) (l : list string) : string :=
  match l with
  | [] => EmptyString
  | [x] => x
  | x :: rest => x ++ sep ++ join sep rest
  end.

(** [soup.get_text(separator=' ', strip=True)]: every string stripped, the
    empty ones left out. *)
Definition get_text (soup : list node) : string :=
  join " " (filter truthy (map strip (flat_map strings soup))).

(** The substitution of the default output formatter. *)
Fixpoint escape (s : string) : string :=
  match s with
  | EmptyString => EmptyString
  | String c s' =>
      (if Ascii.eqb c "&"%char then "&amp;"
       else if Ascii.eqb c "<"%char then "&lt;"
       else if Ascii.eqb c ">"%char then "&gt;"
       else one c) ++ escape s'
  end.

Fixpoint replace_char (c : ascii) (by_ : string) (s : string) : string :=
  match s with
  | EmptyString => EmptyString
  | String x s' => (if Ascii.eqb x c then by_ else one x) ++ replace_char c by_ s'
  end.

Definition quoted_attribute_value (v : string) : string :=
  if char_in dquote v then
    if char_in "'"%char v
    then one dquote ++ replace_char dquote "&quot;" v ++ one dquote
    else "'" ++ v ++ "'"
  else one dquote ++ v ++ one dquote.

Fixpoint attrs_text (attrs : list (string * string)) : string :=
  match attrs with
  | [] => EmptyString
  | (k, v) :: rest => " " ++ k ++ "=" ++ quoted_attribute_value (escape v) ++ attrs_text rest
  end.

(** [str(tag)]. *)
Fixpoint decode (n : node) : string :=
  match n with
  | Text s => escape s
  | Tag name attrs children =>
      match children with
      | [] =>
          if name_in name void_tags
          then "<" ++ name ++ attrs_text attrs ++ "/>"
          else "<" ++ name ++ attrs_text attrs ++ "></" ++ name ++ ">"
      | _ =>
          "<" ++ name ++ attrs_text attrs ++ ">"
          ++ (fix all (l : list node) : string :=
                match l with
                | [] => EmptyString
                | x :: l' => decode x ++ all l'
                end) children
          ++ "</" ++ name ++ ">"
      end
  end.

(** [str(soup)]. *)
Definition decode_all (soup : list node) : string :=
  fold_right (fun n acc => decode n ++ acc) EmptyString soup.

(** ** The plain-text sanitizer ([xml_to_csv_converter.py]) *)

(** [re.sub(r'\s+', ' ', text)]; [in_run] tells that the character before
    was whitespace. *)
Fixpoint squeeze (in_run : bool) (s : string) : string :=
  match s with
  | EmptyString => EmptyString
  | String c s' =>
      if is_space c
      then (if in_run then squeeze true s' else String " "%char (squeeze true s'))
      else String c (squeeze false s')
  end.

Definition clean_html (html_text : string) : string :=
  if negb (truthy html_text) then EmptyString
  else
    let soup := parse_html html_text in
    let text := get_text soup in
    let text := squeeze false text in
    let text := unescape text in
    strip text.

(** ** The formatting-preserving sanitizer ([create_formatted_csv.py]) *)

Definition allowed_tags : list string :=
  [ "p"; "h1"; "h2"; "h3"; "h4"; "h5"; "h6";
    "ul"; "ol"; "li"; "blockquote"; "div";
    "strong"; "b"; "em"; "i"; "u"; "br";
    "a" ].

Fixpoint del_attr (k : string) (attrs : list (string * string)) : list (string * string) :=
  match attrs with
  | [] => []
  | (k', v) :: rest => if String.eqb k k' then del_attr k rest else (k', v) :: del_attr k rest
  end.

Fixpoint get_attr (k : string) (attrs : list (string * string)) : option string :=
  match attrs with
  | [] => None
  | (k', v) :: rest => if String.eqb k k' then Some v else get_attr k rest
  end.

(** The first pass on one tag. *)
Definition strip_attrs (name : string) (attrs : list (string * string)) : list (string * string) :=
  let attrs :=
    del_attr "data-rte-preserve-empty"
      (del_attr "data-sqsp-text-block-content"
         (del_attr "class" (del_attr "style" attrs))) in
  if String.eqb name "a" then
    match get_attr "href" attrs with
    | Some href => [("href", href)]
    | None => attrs
    end
  else attrs.

Fixpoint first_pass (n : node) : node :=
  match n with
  | Text s => Text s
  | Tag name attrs children => Tag name (strip_attrs name attrs) (map first_pass children)
  end.

(** [tag.name == 'span' or tag.name not in allowed_tags]. *)
Definition to_unwrap (name : string) : bool :=
  String.eqb name "span" || negb (name_in name allowed_tags).

(** The second pass: every tag to unwrap gives way to its children. *)
Fixpoint second_pass (n : node) : list node :=
  match n with
  | Text s => [Text s]
  | Tag name attrs children =>
      let children' := flat_map second_pass children in
      if to_unwrap name then children' else [Tag name attrs children']
  end.

(** [re.sub('^' + p, '', s)] for a literal [p]. *)
Definition sub_at_start (p s : string) : string :=
  match after_prefix p s with
  | Some rest => rest
  | None => s
  end.

(** Between the end of a match and [$]: nothing, or the last newline. *)
Definition at_end (rest : string) : bool :=
  String.eqb rest EmptyString || String.eqb rest (one newline).

(** [re.sub(p + '$', '', s)] for a literal [p]. *)
Fixpoint sub_at_end (p s : string) : string :=
  match after_prefix p s with
  | Some rest =>
      if at_end rest then rest
      else match s with
           | EmptyString => EmptyString
           | String c s' => String c (sub_at_end p s')
           end
  | None =>
      match s with
      | EmptyString => EmptyString
      | String c s' => String c (sub_at_end p s')
      end
  end.

(** [re.sub(r'^<div>\s*', '', s)]. *)
Definition sub_div_start (s : string) : string :=
  match after_prefix "<div>" s with
  | Some rest => lstrip rest
  | None => s
  end.

(** [re.sub(r'\s*</div>$', '', s)]. *)
Fixpoint sub_div_end (s : string) : string :=
  match
    match after_prefix "</div>" (lstrip s) with
    | Some rest => if at_end rest then Some rest else None
    | None => None
    end
  with
  | Some rest => rest
  | None =>
      match s with
      | EmptyString => EmptyString
      | String c s' => String c (sub_div_end s')
      end
  end.

(** The length of the longest whitespace at the start of [s] that ends in
    a newline; 0 when there is none. *)
Fixpoint blank_span (s : string) : nat :=
  match s with
  | EmptyString => 0
  | String c s' =>
      if is_space c then
        match blank_span s' with
        | O => if Ascii.eqb c newline then 1 else 0
        | S k => S (S k)
        end
      else 0
  end.

(** [re.sub(r'\n\s*\n', '\n', s)]; [skip] counts the characters of a match
    still to pass. *)
Fixpoint collapse_blank (skip : nat) (s : string) : string :=
  match s with
  | EmptyString => EmptyString
  | String c s' =>
      match skip with
      | S k => collapse_blank k s'
      | O =>
          if Ascii.eqb c newline
          then String newline (collapse_blank (blank_span s') s')
          else String c (collapse_blank 0 s')
      end
  end.

Definition clean_html_preserve_formatting (html_text : string) : string :=
  if negb (truthy html_text) then EmptyString
  else
    let soup := parse_html html_text in
    let soup := map first_pass soup in
    let soup := flat_map second_pass soup in
    let cleaned_html := decode_all soup in
    let cleaned_html := sub_at_start "<html><body>" cleaned_html in
    let cleaned_html := sub_at_end "</body></html>" cleaned_html in
    let cleaned_html := sub_div_start cleaned_html in
    let cleaned_html := sub_div_end cleaned_html in
    let cleaned_html := collapse_blank 0 cleaned_html in
    strip cleaned_html.

End Sanitizer.

(** ** Shapes of text *)

(** Text without the characters that markup is made of. *)
Definition plain_char (c : ascii) : bool :=
  negb (Ascii.eqb c "<"%char || Ascii.eqb c ">"%char || Ascii.eqb c "&"%char).

Definition markup_free (s : string) : bool := all_chars plain_char s.

(** The first character, when there is one, is not whitespace. *)
Definition no_lead (s : string) : bool :=
  match s with
  | EmptyString => true
  | String c _ => negb (is_space c)
  end.

(** Every whitespace character is a space that no whitespace follows. *)
Fixpoint tight (s : string) : bool :=
  match s with
  | EmptyString => true
  | String c s' =>
      (if is_space c then Ascii.eqb c " "%char && no_lead s' else true) && tight s'
  end.

(** No newline is followed by whitespace that ends in a newline. *)
Fixpoint calm (s : string) : bool :=
  match s with
  | EmptyString => true
  | String c s' =>
      (if Ascii.eqb c newline then (blank_span s' =? 0)%nat else true) && calm s'
  end.

(** [s[k:]]. *)
Fixpoint drop (k : nat) (s : string) : string :=
  match k, s with
  | O, _ => s
  | S k', String _ s' => drop k' s'
  | S _, EmptyString => EmptyString
  end.

(** ** The regular expressions of the extractors *)

(** [(.*?)] followed by the literal [close]: the shortest text before the
    first [close]; without [re.DOTALL] the text holds no newline. *)
Fixpoint lazy_until (dotall : bool) (close s : string) : option string :=
  match after_prefix close s with
  | Some _ => Some EmptyString
  | None =>
      match s with
      | EmptyString => None
      | String c s' =>
          if negb dotall && Ascii.eqb c newline then None
          else option_map (String c) (lazy_until dotall close s')
      end
  end.

(** Group 1 of [re.search(open + '(.*?)' + close, s)]: the leftmost place
    where [open] stands and [close] can be reached. *)
Fixpoint search_between (dotall : bool) (open close s : string) : option string :=
  match
    match after_prefix open s with
    | Some rest => lazy_until dotall close rest
    | None => None
    end
  with
  | Some g => Some g
  | None =>
      match s with
      | EmptyString => None
      | String _ s' => search_between dotall open close s'
      end
  end.

(** [\d*] followed by the literal [close]: the digits read. *)
Fixpoint digits_until (close s : string) : option string :=
  match s with
  | String c s' =>
      if is_digit c then option_map (String c) (digits_until close s')
      else option_map (fun _ => EmptyString) (after_prefix close s)
  | EmptyString => option_map (fun _ => EmptyString) (after_prefix close s)
  end.

(** Group 1 of [re.search(open + '(\d+)' + close, s)]. *)
Fixpoint search_digits (open close s : string) : option string :=
  match
    match after_prefix open s with
    | Some rest =>
        match digits_until close rest with
        | Some d => if truthy d then Some d else None
        | None => None
        end
    | None => None
    end
  with
  | Some d => Some d
  | None =>
      match s with
      | EmptyString => None
      | String _ s' => search_digits open close s'
      end
  end.

(** [[^>]*] followed by the literal [><![CDATA[], then [(.*?)] and the
    literal [close]. *)
Fixpoint attrs_then_cdata (close s : string) : option string :=
  match s with
  | EmptyString => None
  | String c s' =>
      if Ascii.eqb c ">"%char then
        match after_prefix "><![CDATA[" s with
        | Some rest => lazy_until false close rest
        | None => None
        end
      else attrs_then_cdata close s'
  end.

(** Group 1 of [re.search(r'<category[^>]*><!\[CDATA\[(.*?)\]\]></category>', s)]. *)
Fixpoint search_category (s : string) : option string :=
  match
    match after_prefix "<category" s with
    | Some rest => attrs_then_cdata "]]></category>" rest
    | None => None
    end
  with
  | Some g => Some g
  | None =>
      match s with
      | EmptyString => None
      | String _ s' => search_category s'
      end
  end.

(** [re.split(sep, s)] for a literal [sep] that is not empty; [skip]
    counts the characters of a separator still to pass. *)
Fixpoint split_at (sep : string) (skip : nat) (cur s : string) : list string :=
  match s with
  | EmptyString => [cur]
  | String c s' =>
      match skip with
      | S k => split_at sep k cur s'
      | O =>
          if startswith s sep
          then cur :: split_at sep (String.length sep - 1) EmptyString s'
          else split_at sep 0 (cur ++ String c EmptyString) s'
      end
  end.

Definition re_split (sep s : string) : list string := split_at sep 0 EmptyString s.

(** [m.group(1) if m else ""]. *)
Definition group_or_empty (m : option string) : string :=
  match m with
  | Some g => g
  | None => EmptyString
  end.

(** ** The extractors ([xml_to_csv_converter.py], [create_formatted_csv.py]) *)

(** The fields both extractors read in the same way. *)
Definition extract_post_id (item : string) : string :=
  group_or_empty (search_digits "<wp:post_id>" "</wp:post_id>" item).

Definition extract_post_type (item : string) : string :=
  group_or_empty (search_between false "<wp:post_type>" "</wp:post_type>" item).

Definition extract_post_date (item : string) : string :=
  match search_between false "<wp:post_date>" "</wp:post_date>" item with
  | Some d => strip d
  | None =>
      match search_between false "<pubDate>" "</pubDate>" item with
      | Some d => strip d
      | None => EmptyString
      end
  end.

Definition extract_category (item : string) : string :=
  group_or_empty (search_category item).

Definition extract_attachment_url (post_type item : string) : string :=
  if String.eqb post_type "attachment"
  then group_or_empty (search_between false "<wp:attachment_url>" "</wp:attachment_url>" item)
  else EmptyString.

Definition search_title (item : string) : option string :=
  search_between true "<title>" "</title>" item.

Definition search_link (item : string) : option string :=
  search_between true "<link>" "</link>" item.

Definition search_post_name (item : string) : option string :=
  search_between false "<wp:post_name>" "</wp:post_name>" item.

Definition search_excerpt (item : string) : option string :=
  search_between true "<excerpt:encoded><![CDATA[" "]]></excerpt:encoded>" item.

Definition search_content (item : string) : option string :=
  search_between true "<content:encoded><![CDATA[" "]]></content:encoded>" item.

(** [post.get('post_id') or post.get('title') or post.get('link')]. *)
Definition has_some_data (post : row) : bool :=
  truthy (post_id post) || truthy (title post) || truthy (link post).

Module XmlToCsv.
Section Extractor.

(** The plain-text sanitizer of the script. *)
Variable clean_html : string -> string.

Definition extract_link (item : string) : string :=
  match search_link item with
  | Some l => strip l
  | None =>
      match search_post_name item with
      | Some name =>
          let post_name := strip name in
          if startswith post_name "/" then post_name
          else if startswith post_name "blogfeed/" || startswith post_name "2017/"
          then "/" ++ post_name
          else "/blogfeed/" ++ post_name
      | None => EmptyString
      end
  end.

Definition extract_content (item : string) : string :=
  match search_content item with
  | Some c =>
      let full_content := clean_html c in
      if (1000 <? String.length full_content)%nat
      then substring 0 1000 full_content ++ "..."
      else full_content
  | None => EmptyString
  end.

(** The body of [for item in items[1:]] up to the test that keeps a post. *)
Definition extract_post (item : string) : row :=
  let post_type := extract_post_type item in
  {| title := match search_title item with Some t => clean_html t | None => EmptyString end;
     link := extract_link item;
     post_id := extract_post_id item;
     post_type := post_type;
     post_date := extract_post_date item;
     category := extract_category item;
     excerpt := match search_excerpt item with Some e => clean_html e | None => EmptyString end;
     content := extract_content item;
     attachment_url := extract_attachment_url post_type item |}.

(** What one item appends to [posts]. *)
Definition emit (item : string) : list row :=
  let post := extract_post item in
  if has_some_data post then [post] else [].


End Extractor.
End XmlToCsv.

Module Formatted.
Section Extractor.

(** The formatting-preserving sanitizer of the script. *)
Variable clean_html_preserve_formatting : string -> string.

Definition extract_link (item : string) : string :=
  match search_link item with
  | Some l => strip l
  | None =>
      match search_post_name item with
      | Some name =>
          let post_name := strip name in
          if negb (startswith post_name "/") then "/" ++ post_name else post_name
      | None => EmptyString
      end
  end.

Definition extract_post (item : string) : row :=
  let post_type := extract_post_type item in
  {| title := match search_title item with Some t => strip t | None => EmptyString end;
     link := extract_link item;
     post_id := extract_post_id item;
     post_type := post_type;
     post_date := extract_post_date item;
     category := extract_category item;
     excerpt := match search_excerpt item with
                | Some e => clean_html_preserve_formatting e
                | None => EmptyString
                end;
     content := match search_content item with
                | Some c => clean_html_preserve_formatting c
                | None => EmptyString
                end;
     attachment_url := extract_attachment_url post_type item |}.

Definition emit (item : string) : list row :=
  let post := extract_post item in
  if has_some_data post then [post] else [].

Definition parse_xml_with_formatting (content : string) : list row :=
  flat_map emit (tl (re_split "<item>" content)).

End Extractor.
End Formatted.

(** ** Example items *)

Definition sample_item : string :=
  "
<title>Summer BBQ Recap</title>
<wp:post_name>summer-bbq-recap</wp:post_name>
<wp:post_id>42</wp:post_id>
<wp:post_type>post</wp:post_type>
<pubDate>Mon, 01 Jul 2019</pubDate>
<category domain='category'><![CDATA[Events]]></category>
</item>".

Definition name_only_item : string := "<wp:post_name>hello</wp:post_name>".

(** ** Example text *)

Definition text_sample : string :=
  "  Notes from the dock

	
 Bring   a towel.  ".

(** ** Example pages *)

(** A page whose header image is lazy-loaded from a protocol-relative URL. *)
Definition header_page : soup :=
  mk_soup
    (fun selector =>
       if String.eqb selector ".blog-item-top-wrapper img"
       then Some (mk_img (Some "//images.example.com/header.jpg") None (Some "/spacer.gif"))
       else None)
    None None.

(** A page with no header image element, whose og:image is the site logo
    under a protocol-relative URL. *)
Definition logo_page : soup :=
  mk_soup (fun _ => None) (Some (Some "//static.example.com/site-logo.png")) None.

(** A page whose header element holds a root-relative icon. *)
Definition icon_page : soup :=
  mk_soup
    (fun selector =>
       if String.eqb selector ".blog-item-top-wrapper img"
       then Some (mk_img None None (Some "/assets/icon.png"))
       else None)
    None None.

(** ** The earlier reconciler by recursion on the rows *)

Fixpoint attach_preceding (rows : list row) : list Plain.merged_post :=
  match rows with
  | [] => []
  | r :: rest =>
      let fall_through :=
        if is_content r
        then with_attachment r "" "" :: attach_preceding rest
        else attach_preceding rest in
      if is_attachment r then
        match rest with
        | next_row :: rest' =>
            if is_content next_row
            then with_attachment next_row (attachment_url r) (post_id r) :: attach_preceding rest'
            else fall_through
        | [] => fall_through
        end
      else fall_through
  end.

(** The ten columns the two merged tables share. *)
Definition plain_of (m : Merged.merged_post) : Plain.merged_post :=
  {| Plain.post_id := Merged.post_id m;
     Plain.title := Merged.title m;
     Plain.post_type := Merged.post_type m;
     Plain.post_date := Merged.post_date m;
     Plain.category := Merged.category m;
     Plain.link := Merged.link m;
     Plain.excerpt := Merged.excerpt m;
     Plain.content := Merged.content m;
     Plain.attachment_url := Merged.attachment_url m;
     Plain.attachment_id := Merged.attachment_id m |}.

(** ** Statistics of the annotated table ([merge_attachments_corrected.py]) *)

Module Stats.

(** The numbers [print_statistics] computes before it prints them;
    [reasons] is the dictionary in the order its keys were first set. *)
Record statistics := mk {
  total : nat;
  with_images : nat;
  without_images : nat;
  needs_review : nat;
  good_matches : nat;
  reasons : list (string * nat)
}.

(** [sum(1 for p in posts if test(p))]. *)
Definition count (test : Merged.merged_post -> bool) (posts : list Merged.merged_post) : nat :=
  List.length (filter test posts).

(** [reasons[reason] = reasons.get(reason, 0) + 1]. *)
Fixpoint bump (reason : string) (d : list (string * nat)) : list (string * nat) :=
  match d with
  | [] => [(reason, 0 + 1)]
  | (k, n) :: rest =>
      if String.eqb reason k then (k, n + 1) :: rest else (k, n) :: bump reason rest
  end.

Definition print_statistics (posts : list Merged.merged_post) : statistics :=
  {| total := List.length posts;
     with_images := count (fun p => truthy (Merged.attachment_url p)) posts;
     without_images := count (fun p => negb (truthy (Merged.attachment_url p))) posts;
     needs_review := count (fun p => String.eqb (Merged.needs_review p) "YES") posts;
     good_matches := count (fun p => String.eqb (Merged.needs_review p) "NO") posts;
     reasons := fold_left (fun d p => bump (Merged.review_reason p) d) posts [] |}.

End Stats.

(** ** The pipeline of [create_formatted_csv.py] *)

(** What [main] writes: the extracted posts, merged. *)
Definition formatted_rows (clean_html_preserve_formatting : string -> string) (content : string)
  : option (list Plain.merged_post) :=
  merge_with_attachments
    (Formatted.parse_xml_with_formatting clean_html_preserve_formatting content).

(** ** Tags of a markup tree *)

(** [soup.find_all(True)]: every tag with its attributes, in document order. *)
Fixpoint tags (n : node) : list (string * list (string * string)) :=
  match n with
  | Text _ => []
  | Tag name attrs children => (name, attrs) :: flat_map tags children
  end.

(** The attributes the first pass deletes from every tag. *)
Definition deleted_attrs : list string :=
  ["style"; "class"; "data-sqsp-text-block-content"; "data-rte-preserve-empty"].

(** ** Updating the table from the live pages ([scrape_images_v2.py], [scrape_images.py]) *)






Section Update.

Variable urljoin : string -> string -> string.

(** The request and the parse of the answer: [None] when either raises. *)
Variable fetch : string -> option soup.





End Update.

(** ** Notions the properties use *)

(** The reasons the scorer can give. *)
Definition review_vocabulary (reason : string) : Prop :=
  reason = "No image" \/
  (exists generic, In generic generic_names /\ reason = "Generic image (" ++ generic ++ ")") \/
  reason = "Good match" \/
  reason = "No match - likely stock photo".

(** [c] is not the character [x]. *)
Definition not_char (x : ascii) (c : ascii) : bool := negb (Ascii.eqb c x).

(** The four deletions of the first pass, in its order. *)
Definition delete_four (attrs : list (string * string)) : list (string * string) :=
  del_attr "data-rte-preserve-empty"
    (del_attr "data-sqsp-text-block-content" (del_attr "class" (del_attr "style" attrs))).

(** [filename_lower == generic or filename_lower.startswith(generic + '_')]
    for one of the generic names. *)
Definition is_generic_name (filename : string) : Prop :=
  exists generic, In generic generic_names /\
    (lower filename = generic \/ startswith (lower filename) (generic ++ "_") = true).

(** * Properties *)

(** ** Lists and cursors *)

Lemma skipn_at {A : Type} (l : list A) (i : nat) (x : A) :
  nth_error l i = Some x -> skipn i l = x :: skipn (S i) l.
Proof.
  revert i; induction l as [|a l IH]; intros [|i] H; simpl in *; try discriminate.
  - now inversion H.
  - now apply IH.
Qed.

Lemma skipn_past {A : Type} (l : list A) (i : nat) :
  nth_error l i = None -> skipn i l = [].
Proof.
  intros H. apply skipn_all2. now apply nth_error_None.
Qed.

(** ** The loops reach their exit *)

(** Facts about the row under the cursor and the rows after it, brought
    into the context before a loop body is split into its cases. *)
Ltac cursor_facts rows i :=
  repeat match goal with
  | H : nth_error rows ?k = Some _ |- _ =>
      lazymatch goal with
      | _ : k < List.length rows |- _ => fail
      | _ => assert (k < List.length rows) by (apply nth_error_Some; congruence);
             rewrite ?(skipn_at _ _ _ H)
      end
  | H : nth_error rows ?k = None |- _ =>
      lazymatch goal with
      | _ : List.length rows <= k |- _ => fail
      | _ => assert (List.length rows <= k) by (now apply nth_error_None);
             rewrite ?(skipn_past _ _ H)
      end
  end.

Section LoopResults.

Variable url_path : string -> string.

Lemma corrected_loop_result (rows : list row) :
  forall fuel i merged,
    i <= List.length rows ->
    List.length rows - i <= fuel ->
    while_loop (corrected_body url_path rows) fuel (i, merged)
    = Some (List.length rows, (merged ++ pair_following url_path (skipn i rows))%list).
Proof.
  induction fuel as [|fuel IH]; intros i merged Hi Hfuel.
  - replace i with (List.length rows) by lia. simpl.
    rewrite (proj2 (nth_error_None rows _)) by lia.
    now rewrite skipn_all, app_nil_r.
  - cbn [while_loop corrected_body]. rewrite Nat.add_1_r.
    destruct (nth_error rows i) as [r|] eqn:Hr; cursor_facts rows i.
    + cbn [pair_following]. destruct (is_content r).
      * destruct (nth_error rows (S i)) as [next_row|] eqn:Hn; cursor_facts rows i;
          [destruct (is_attachment next_row)|];
          rewrite IH by lia; rewrite <- app_assoc; cbn [app];
          rewrite ?(skipn_at _ _ _ Hn), ?(skipn_past _ _ Hn);
          repeat f_equal; lia.
      * now rewrite IH by lia.
    + replace i with (List.length rows) by lia.
      now rewrite ?skipn_all, app_nil_r.
Qed.

Lemma merge_attachments_corrected_result (rows : list row) :
  merge_attachments_corrected url_path rows = Some (pair_following url_path rows).
Proof.
  unfold merge_attachments_corrected.
  now rewrite corrected_loop_result by lia.
Qed.

End LoopResults.

Lemma formatted_loop_result (posts : list row) :
  forall fuel i merged,
    i <= List.length posts ->
    List.length posts - i <= fuel ->
    while_loop (formatted_body posts) fuel (i, merged)
    = Some (List.length posts, (merged ++ attach_following (skipn i posts))%list).
Proof.
  induction fuel as [|fuel IH]; intros i merged Hi Hfuel.
  - replace i with (List.length posts) by lia. simpl.
    rewrite (proj2 (nth_error_None posts _)) by lia.
    now rewrite skipn_all, app_nil_r.
  - cbn [while_loop formatted_body]. rewrite Nat.add_1_r.
    destruct (nth_error posts i) as [post|] eqn:Hr; cursor_facts posts i.
    + cbn [attach_following]. destruct (is_content post).
      * destruct (nth_error posts (S i)) as [attachment|] eqn:Hn; cursor_facts posts i;
          [destruct (is_attachment attachment)|];
          rewrite IH by lia; rewrite <- app_assoc; cbn [app];
          rewrite ?(skipn_at _ _ _ Hn), ?(skipn_past _ _ Hn);
          repeat f_equal; lia.
      * now rewrite IH by lia.
    + replace i with (List.length posts) by lia.
      now rewrite ?skipn_all, app_nil_r.
Qed.

Lemma merge_with_attachments_result (posts : list row) :
  merge_with_attachments posts = Some (attach_following posts).
Proof.
  unfold merge_with_attachments.
  now rewrite formatted_loop_result by lia.
Qed.

(** ** Merged rows and their content records *)

Lemma attachment_not_content (r : row) : is_attachment r = true -> is_content r = false.
Proof.
  unfold is_attachment, is_content. intros H.
  apply String.eqb_eq in H. now rewrite H.
Qed.

Section MergedRows.

Variable url_path : string -> string.


Lemma paired_post_attachment (r next_row : row) :
  Merged.attachment_url (paired_post url_path r next_row) = attachment_url next_row /\
  Merged.attachment_id (paired_post url_path r next_row) = post_id next_row /\
  Merged.attachment_filename (paired_post url_path r next_row)
  = get_filename url_path (attachment_url next_row).
Proof.
  unfold paired_post.
  now destruct (check_match_quality _ _) as [[score flag] reason].
Qed.



(** Every merged row is built from a content row of the input, alone or
    with an attachment row of the input. *)
Lemma pair_following_members_bounded (n : nat) :
  forall rows m, List.length rows <= n ->
    In m (pair_following url_path rows) ->
    (exists r, In r rows /\ is_content r = true /\ m = unpaired_post r) \/
    (exists r a, In r rows /\ In a rows /\ is_content r = true /\
                 is_attachment a = true /\ m = paired_post url_path r a).
Proof.
  induction n as [|n IH]; intros [|r rest] m Hn Hin; simpl in *; try lia; try contradiction.
  assert (Hrest : forall l, List.length l <= n -> incl l rest ->
            In m (pair_following url_path l) ->
            (exists r0, (r = r0 \/ In r0 rest) /\ is_content r0 = true /\ m = unpaired_post r0) \/
            (exists r0 a, (r = r0 \/ In r0 rest) /\ (r = a \/ In a rest) /\ is_content r0 = true /\
                          is_attachment a = true /\ m = paired_post url_path r0 a)).
  { intros l Hl Hincl Hm.
    destruct (IH l m Hl Hm) as [(r0 & ? & ? & ?)|(r0 & a & ? & ? & ? & ? & ?)].
    - left. exists r0. auto.
    - right. exists r0, a. repeat split; auto. }
  destruct (is_content r) eqn:Hr.
  - destruct rest as [|next_row rest'].
    + destruct Hin as [<-|[]]. left. exists r. auto.
    + destruct (is_attachment next_row) eqn:Ha; destruct Hin as [<-|Hin].
      * right. exists r, next_row. repeat split; simpl; auto.
      * apply (Hrest rest'); simpl in *; auto; try lia.
        intros x Hx. now right.
      * left. exists r. auto.
      * apply (Hrest (next_row :: rest')); simpl in *; auto; try lia.
        apply incl_refl.
  - apply (Hrest rest); auto; try lia. apply incl_refl.
Qed.

End MergedRows.

Lemma with_attachment_fields (post : row) (u a : string) :
  plain_fields (with_attachment post u a) = row_fields post.
Proof. reflexivity. Qed.

Lemma attach_following_fields_bounded (n : nat) :
  forall posts, List.length posts <= n ->
    map plain_fields (attach_following posts) = map row_fields (filter is_content posts).
Proof.
  induction n as [|n IH]; intros [|post rest] Hn; simpl in *; try lia; auto.
  destruct (is_content post) eqn:Hr.
  - destruct rest as [|attachment rest']; [reflexivity|].
    destruct (is_attachment attachment) eqn:Ha; cbn [map].
    + rewrite with_attachment_fields, IH by (simpl in *; lia).
      cbn [filter]. now rewrite (attachment_not_content _ Ha).
    + now rewrite IH by lia.
  - apply IH; lia.
Qed.

(** ** Words of a simplified string *)

Lemma append_assoc (a b c : string) : ((a ++ b) ++ c = a ++ (b ++ c))%string.
Proof. induction a as [|x a IH]; simpl; [reflexivity|now rewrite IH]. Qed.

Lemma append_empty_r (a : string) : (a ++ "" = a)%string.
Proof. induction a as [|x a IH]; simpl; [reflexivity|now rewrite IH]. Qed.

Lemma keep_chars_all (p : ascii -> bool) (s : string) :
  all_chars p (keep_chars p s) = true.
Proof.
  induction s as [|c s IH]; simpl; [reflexivity|].
  destruct (p c) eqn:Hc; simpl; [now rewrite Hc|assumption].
Qed.

(** A string made of the class alone is one run. *)
Lemma runs_all (s : string) :
  all_chars is_az09 s = true -> forall cur, runs cur s = flush (cur ++ s).
Proof.
  induction s as [|c s IH]; simpl; intros H cur.
  - now rewrite append_empty_r.
  - apply andb_true_iff in H as [Hc Hs]. rewrite Hc, IH by assumption.
    now rewrite append_assoc.
Qed.

Lemma findall_words_simplified (text : string) :
  findall_words (simplify_text text) = flush (simplify_text text).
Proof.
  unfold findall_words. rewrite runs_all; [reflexivity|apply keep_chars_all].
Qed.

(** Two simplified strings share a word only when one contains the other. *)
Lemma count_matches_flush (a b : string) :
  str_in a b || str_in b a = false -> count_matches (flush a) (flush b) = 0.
Proof.
  intros H. unfold count_matches, flush.
  destruct (3 <=? String.length a)%nat; [|reflexivity].
  destruct (3 <=? String.length b)%nat; [|reflexivity].
  simpl. now rewrite H.
Qed.

Lemma partial_match_simplified (title filename : string) :
  str_in (simplify_text filename) (simplify_text title)
  || str_in (simplify_text title) (simplify_text filename) = false ->
  partial_match (simplify_text title) (simplify_text filename)
  = (2, true, "No match - likely stock photo").
Proof.
  intros H. unfold partial_match.
  destruct (5 <=? _)%nat; [|reflexivity].
  rewrite !findall_words_simplified, count_matches_flush by assumption.
  reflexivity.
Qed.

(** The outcomes the scorer can produce. *)
Lemma check_match_quality_cases (title filename : string) :
  check_match_quality title filename = (0, true, "No image") \/
  (exists generic, In generic generic_names /\
     check_match_quality title filename = (1, true, "Generic image (" ++ generic ++ ")")) \/
  check_match_quality title filename = (10, false, "Good match") \/
  check_match_quality title filename = (2, true, "No match - likely stock photo").
Proof.
  unfold check_match_quality.
  destruct (negb (truthy filename)); [now left|].
  destruct (find_generic generic_names (lower filename)) as [generic|] eqn:Hg.
  - right; left. exists generic. split; [|reflexivity].
    revert Hg. generalize generic_names as names.
    induction names as [|g names IH]; simpl; [discriminate|].
    destruct (_ || _); [intros [= ->]; now left|intros H; right; auto].
  - destruct (_ || _) eqn:Hin; [now right; right; left|].
    right; right; right. now apply partial_match_simplified.
Qed.

(** ** Reconciliation *)




(** C4, the two reconcilers differ.  On an attachment row followed by a
    post row the earlier reconciler gives the post that attachment, and the
    corrected reconciler leaves the same post without attachment. *)
Theorem reconcilers_not_equivalent (url_path : string -> string) :
  exists (rows : list row) (e : Plain.merged_post) (c : Merged.merged_post),
    merge_attachments_to_posts rows = Some [e] /\
    merge_attachments_corrected url_path rows = Some [c] /\
    plain_fields e = merged_fields c /\
    Plain.attachment_url e = "http://x/a.jpg" /\
    Plain.attachment_id e = "2" /\
    Merged.attachment_url c = "" /\
    Merged.attachment_id c = "" /\
    Plain.attachment_url e <> Merged.attachment_url c.
Proof.
  pose (media_x := mk_row "2" "" "attachment" "" "" "" "" "" "http://x/a.jpg").
  pose (post_a := mk_row "1" "A" "post" "" "" "/a" "" "" "").
  exists [media_x; post_a], (with_attachment post_a "http://x/a.jpg" "2"), (unpaired_post post_a).
  repeat split; discriminate.
Qed.

(** ** Scoring *)

(** C7, no-image outcome.  Every row the corrected reconciler returns is
    the unpaired row of a content row or the paired row of a content row
    and an attachment row.  The unpaired row, and the paired row whose
    attachment has an empty url, have an empty attachment filename, need
    review, and give the reason "No image"; on the empty filename the
    scorer returns score 0. *)
Theorem no_image_outcome (url_path : string -> string) (rows : list row)
    (merged : list Merged.merged_post) (m : Merged.merged_post) :
  merge_attachments_corrected url_path rows = Some merged ->
  In m merged ->
  ((exists r, In r rows /\ is_content r = true /\ m = unpaired_post r) \/
   (exists r a, In r rows /\ In a rows /\ is_content r = true /\
                is_attachment a = true /\ m = paired_post url_path r a)) /\
  (forall r, m = unpaired_post r \/
             (exists a, m = paired_post url_path r a /\ attachment_url a = "") ->
     Merged.attachment_filename m = "" /\
     Merged.needs_review m = "YES" /\
     Merged.review_reason m = "No image" /\
     check_match_quality (title r) (Merged.attachment_filename m) = (0, true, "No image")).
Proof.
  rewrite merge_attachments_corrected_result. intros [= <-] Hin. split.
  - now apply (pair_following_members_bounded url_path (List.length rows)).
  - intros r [->|(a & -> & Ha)]; [now repeat split|].
    unfold paired_post. rewrite Ha. now repeat split.
Qed.

Lemma no_image_outcome_witness :
  let post_a := mk_row "1" "A" "post" "" "" "/a" "" "" "" in
  let media_x := mk_row "2" "" "attachment" "" "" "" "" "" "" in
  let m := paired_post (fun u => u) post_a media_x in
  merge_attachments_corrected (fun u => u) [post_a; media_x] = Some [m] /\
  In m [m] /\
  Merged.attachment_filename m = "" /\
  Merged.needs_review m = "YES" /\
  Merged.review_reason m = "No image".
Proof.
  intros post_a media_x m.
  split; [reflexivity|]. split; [now left|].
  destruct (no_image_outcome (fun u => u) [post_a; media_x] [m] m eq_refl (or_introl eq_refl))
    as [_ H].
  destruct (H post_a (or_intror (ex_intro _ media_x (conj eq_refl eq_refl)))) as (H1 & H2 & H3 & _).
  auto.
Defined.

(** C10, flag and score.  The score is one of 0, 1, 2, 5, 8, 10; the review
    flag is false exactly when the score is 8 or 10, and then the reason is
    "Partial match" or "Good match". *)
Theorem scorer_flag_score_coupling (title filename : string) :
  let q := check_match_quality title filename in
  In (score_of q) [0; 1; 2; 5; 8; 10] /\
  (needs_review_of q = false <-> score_of q = 8 \/ score_of q = 10) /\
  (score_of q = 8 -> reason_of q = "Partial match") /\
  (score_of q = 10 -> reason_of q = "Good match").
Proof.
  unfold check_match_quality, partial_match.
  repeat match goal with
  | |- context [match ?x with _ => _ end] => destruct x
  end; cbv [score_of needs_review_of reason_of fst snd In];
  (split; [tauto|split; [split; [discriminate || tauto|intros [H|H]; discriminate || reflexivity]
                        |split; intros H; discriminate || reflexivity]]).
Qed.

(** C3, the partial-match rule.  Simplified strings hold no separator, so
    each is a single word, and two words match only when one simplified
    string contains the other, which is the case the exact-match test has
    taken already: the scorer never returns score 8 or score 5.  For the
    title "Kayak Trip Tips" and the filename "kayaking-adventure-2019" it
    returns score 2. *)
Theorem partial_match_never_reported :
  check_match_quality "Kayak Trip Tips" "kayaking-adventure-2019"
  = (2, true, "No match - likely stock photo") /\
  forall title filename,
    score_of (check_match_quality title filename) <> 8 /\
    score_of (check_match_quality title filename) <> 5.
Proof.
  split; [reflexivity|]. intros title filename.
  destruct (check_match_quality_cases title filename) as [E|[(g & _ & E)|[E|E]]];
    rewrite E; split; discriminate.
Qed.

(** ** Resolving *)

Lemma prefix_lower (p s : string) :
  String.prefix p s = true -> String.prefix (lower p) (lower s) = true.
Proof.
  revert s; induction p as [|a p IH]; intros [|b s]; simpl; try discriminate; auto.
  destruct (ascii_dec a b) as [->|]; [|discriminate].
  intros H. destruct (ascii_dec (lower_char b) (lower_char b)); [auto|congruence].
Qed.

Lemma str_in_lower (p s : string) :
  str_in p s = true -> str_in (lower p) (lower s) = true.
Proof.
  induction s as [|c s IH]; cbn [str_in lower]; unfold startswith; intros H;
    apply orb_true_iff in H as [H|H]; try discriminate;
    apply orb_true_iff; [left|left|right; auto]; apply (prefix_lower _ _ H).
Qed.

Lemma accepted_no_logo_icon (u : string) :
  ScrapeV2.accepted u = true ->
  str_in "logo" (lower u) = false /\ str_in "icon" (lower u) = false /\
  str_in "logo" u = false /\ str_in "icon" u = false.
Proof.
  unfold ScrapeV2.accepted. intros H.
  apply andb_true_iff in H as [H1 H2].
  apply negb_true_iff in H1, H2. repeat split; auto.
  - destruct (str_in "logo" u) eqn:E; [|reflexivity].
    apply str_in_lower in E. change (lower "logo") with "logo" in E. congruence.
  - destruct (str_in "icon" u) eqn:E; [|reflexivity].
    apply str_in_lower in E. change (lower "icon") with "icon" in E. congruence.
Qed.

Lemma try_selectors_found (urljoin : string -> string -> string) (page : soup) (url : string) :
  forall sels u,
    ScrapeV2.try_selectors urljoin page url sels = Some u ->
    exists selector img img_url,
      In selector sels /\
      select_one page selector = Some img /\
      ScrapeV2.candidate img = Some img_url /\
      truthy img_url = true /\
      u = ScrapeV2.full_url urljoin url img_url /\
      ScrapeV2.accepted u = true.
Proof.
  induction sels as [|selector sels IH]; simpl; [discriminate|]. intros u H.
  assert (Hrest : ScrapeV2.try_selectors urljoin page url sels = Some u ->
                  exists sel img img_url, (selector = sel \/ In sel sels) /\
                    select_one page sel = Some img /\ ScrapeV2.candidate img = Some img_url /\
                    truthy img_url = true /\ u = ScrapeV2.full_url urljoin url img_url /\
                    ScrapeV2.accepted u = true).
  { intros H'. destruct (IH u H') as (sel & img & c & ? & ?). exists sel, img, c. auto. }
  destruct (select_one page selector) as [img|] eqn:Hs; auto.
  destruct (ScrapeV2.candidate img) as [img_url|] eqn:Hc; auto.
  destruct (truthy img_url) eqn:Ht; auto.
  destruct (ScrapeV2.accepted _) eqn:Ha; auto.
  injection H as <-. exists selector, img, img_url. auto 10.
Qed.

(** C9 as the code has it.  A URL the selector loop of [scrape_images_v2]
    returns is the result of the function; it comes from an [img] element
    that one of the selectors found; a candidate starting with [//] is
    returned with [https:] before it and one starting with [/] is returned
    joined to the page URL; neither the URL nor its lower-case form
    contains "logo" or "icon".  When the loop finds nothing, the content of
    the og:image tag, and after it of the twitter:image tag, is returned
    as it stands. *)
Theorem selector_candidates_filtered (urljoin : string -> string -> string)
    (page : soup) (url : string) :
  (forall u,
      ScrapeV2.try_selectors urljoin page url ScrapeV2.selectors = Some u ->
      ScrapeV2.get_header_image urljoin (Some page) url = Some u /\
      (exists selector img img_url,
          In selector ScrapeV2.selectors /\
          select_one page selector = Some img /\
          ScrapeV2.candidate img = Some img_url /\
          u = (if startswith img_url "//" then "https:" ++ img_url
               else if startswith img_url "/" then urljoin url img_url
               else img_url)) /\
      str_in "logo" (lower u) = false /\ str_in "icon" (lower u) = false /\
      str_in "logo" u = false /\ str_in "icon" u = false) /\
  (ScrapeV2.try_selectors urljoin page url ScrapeV2.selectors = None ->
   ScrapeV2.get_header_image urljoin (Some page) url
   = match meta_content (og_image page) with
     | Some c => Some c
     | None => meta_content (twitter_image page)
     end).
Proof.
  split.
  - intros u H. split; [unfold ScrapeV2.get_header_image; now rewrite H|].
    destruct (try_selectors_found _ _ _ _ _ H) as (sel & img & c & Hin & Hs & Hc & _ & Hu & Ha).
    split; [exists sel, img, c; auto|].
    now apply accepted_no_logo_icon.
  - intros H. unfold ScrapeV2.get_header_image. now rewrite H.
Qed.

Lemma selector_candidates_filtered_witness :
  ScrapeV2.try_selectors (fun base ref => ref) header_page "https://www.thepointva.com/blogfeed/x"
    ScrapeV2.selectors = Some "https://images.example.com/header.jpg" /\
  ScrapeV2.get_header_image (fun base ref => ref) (Some header_page)
    "https://www.thepointva.com/blogfeed/x" = Some "https://images.example.com/header.jpg" /\
  str_in "logo" "https://images.example.com/header.jpg" = false.
Proof.
  destruct (selector_candidates_filtered (fun base ref => ref) header_page
              "https://www.thepointva.com/blogfeed/x") as [H _].
  destruct (H "https://images.example.com/header.jpg" eq_refl) as (Hr & _ & _ & _ & Hl & _).
  split; [reflexivity|]. split; assumption.
Defined.

(** The meta-tag fallback of [scrape_images_v2] returns a protocol-relative
    URL that contains "logo", whatever [urljoin] is, and the resolver of
    [scrape_images] returns a root-relative URL that contains "icon". *)
Lemma meta_fallback_unfiltered :
  ~ (forall (urljoin : string -> string -> string) (page : soup) (url u : string),
       ScrapeV2.get_header_image urljoin (Some page) url = Some u ->
       str_in "logo" u = false /\ str_in "icon" u = false /\ startswith u "/" = false) /\
  ScrapeV1.get_header_image (Some icon_page) = Some "/assets/icon.png".
Proof.
  split; [|reflexivity]. intros H.
  destruct (H (fun base ref => ref) logo_page "https://www.thepointva.com/blogfeed/x"
              "//static.example.com/site-logo.png" eq_refl) as [Hlogo _].
  discriminate.
Qed.

(** ** Extracting *)


Lemma truthy_false (s : string) : truthy s = false <-> s = "".
Proof. destruct s; simpl; split; congruence. Qed.



(** Appending the kept posts one item at a time is filtering the extracted posts. *)
Lemma flat_map_keep {A B : Type} (f : A -> B) (keep : B -> bool) (l : list A) :
  flat_map (fun a => if keep (f a) then [f a] else []) l = filter keep (map f l).
Proof.
  induction l as [|a l IH]; simpl; [reflexivity|].
  destruct (keep (f a)); simpl; now rewrite IH.
Qed.



(** C5 as the code has it.  For an item without link field and with a
    post-name field, read with the surrounding whitespace removed: the
    extractor of the formatted pipeline gives the post name, with a slash
    before it unless it starts with one; the extractor of the plain
    pipeline gives the post name when it starts with a slash, puts a
    slash before a name starting with [blogfeed/] or [2017/], and puts
    [/blogfeed/] before every other name. *)
Theorem link_fallback (clean_html clean_html_preserve_formatting : string -> string)
    (item name : string) :
  search_link item = None ->
  search_post_name item = Some name ->
  let post_name := strip name in
  link (Formatted.extract_post clean_html_preserve_formatting item)
  = (if startswith post_name "/" then post_name else "/" ++ post_name) /\
  link (XmlToCsv.extract_post clean_html item)
  = (if startswith post_name "/" then post_name
     else if startswith post_name "blogfeed/" || startswith post_name "2017/"
          then "/" ++ post_name
          else "/blogfeed/" ++ post_name).
Proof.
  intros Hl Hn post_name. simpl.
  unfold Formatted.extract_link, XmlToCsv.extract_link. rewrite Hl, Hn.
  fold post_name. split; [|reflexivity].
  now destruct (startswith post_name "/").
Qed.

Lemma link_fallback_witness :
  search_link sample_item = None /\
  search_post_name sample_item = Some "summer-bbq-recap" /\
  link (Formatted.extract_post (fun s => s) sample_item) = "/summer-bbq-recap" /\
  link (XmlToCsv.extract_post (fun s => s) sample_item) = "/blogfeed/summer-bbq-recap".
Proof.
  split; [reflexivity|]. split; [reflexivity|].
  exact (link_fallback (fun s => s) (fun s => s) sample_item "summer-bbq-recap" eq_refl eq_refl).
Defined.

(** The plain extractor does not put a bare slash before the post name
    [hello]: its link is [/blogfeed/hello]. *)
Lemma plain_extractor_link_prefix :
  ~ (forall (clean_html : string -> string) (item name : string),
       search_link item = None ->
       search_post_name item = Some name ->
       link (XmlToCsv.extract_post clean_html item)
       = (if startswith (strip name) "/" then strip name else "/" ++ strip name)).
Proof.
  intros H.
  specialize (H (fun s => s) name_only_item "hello" eq_refl eq_refl).
  discriminate H.
Qed.

(** ** Stripping *)

Lemma newline_is_space (c : ascii) : Ascii.eqb c newline = true -> is_space c = true.
Proof. intros H. apply Ascii.eqb_eq in H. now subst. Qed.

Lemma lstrip_no_lead (s : string) : no_lead (lstrip s) = true.
Proof.
  induction s as [|c s IH]; simpl; [reflexivity|].
  destruct (is_space c) eqn:Hc; [assumption|]. simpl. now rewrite Hc.
Qed.

Lemma no_lead_lstrip (s : string) : no_lead s = true -> lstrip s = s.
Proof.
  destruct s as [|c s]; simpl; [reflexivity|].
  now destruct (is_space c).
Qed.

Lemma rstrip_no_lead (s : string) : no_lead s = true -> no_lead (rstrip s) = true.
Proof.
  destruct s as [|c s]; simpl; [reflexivity|]. intros Hc.
  destruct (rstrip s); [|assumption].
  apply negb_true_iff in Hc. rewrite Hc. simpl. now rewrite Hc.
Qed.

Lemma rstrip_idem (s : string) : rstrip (rstrip s) = rstrip s.
Proof.
  induction s as [|c s IH]; simpl; [reflexivity|].
  destruct (rstrip s) as [|d r] eqn:Hr.
  - destruct (is_space c) eqn:Hc; simpl; [reflexivity|now rewrite Hc].
  - cbn [rstrip] in *. now rewrite IH.
Qed.

Lemma strip_idem (s : string) : strip (strip s) = strip s.
Proof.
  unfold strip.
  rewrite (no_lead_lstrip (rstrip (lstrip s))).
  - apply rstrip_idem.
  - apply rstrip_no_lead, lstrip_no_lead.
Qed.

Lemma strip_no_lead (s : string) : no_lead (strip s) = true.
Proof. apply rstrip_no_lead, lstrip_no_lead. Qed.

Lemma all_chars_lstrip (p : ascii -> bool) (s : string) :
  all_chars p s = true -> all_chars p (lstrip s) = true.
Proof.
  induction s as [|c s IH]; simpl; [reflexivity|]. intros H.
  destruct (is_space c); [|exact H].
  apply andb_true_iff in H. now apply IH.
Qed.

Lemma all_chars_rstrip (p : ascii -> bool) (s : string) :
  all_chars p s = true -> all_chars p (rstrip s) = true.
Proof.
  induction s as [|c s IH]; simpl; [reflexivity|]. intros H.
  apply andb_true_iff in H as [Hc Hs]. specialize (IH Hs).
  destruct (rstrip s) as [|d r].
  - destruct (is_space c); simpl; [reflexivity|now rewrite Hc].
  - cbn [all_chars] in *. now rewrite Hc.
Qed.

Lemma all_chars_strip (p : ascii -> bool) (s : string) :
  all_chars p s = true -> all_chars p (strip s) = true.
Proof. intros H. now apply all_chars_rstrip, all_chars_lstrip. Qed.

(** ** Runs of whitespace *)

Lemma squeeze_shape (s : string) :
  forall in_run, tight (squeeze in_run s) = true /\ no_lead (squeeze true s) = true.
Proof.
  induction s as [|c s IH]; intros in_run; simpl; [now split|].
  destruct (IH true) as [Ht Hl]. destruct (IH false) as [Hf _].
  destruct (is_space c) eqn:Hc.
  - split; [|assumption].
    destruct in_run; [assumption|]. simpl. now rewrite Hl, Ht.
  - simpl. now rewrite Hc, Hf.
Qed.


Lemma tight_lstrip (s : string) : tight s = true -> tight (lstrip s) = true.
Proof.
  induction s as [|c s IH]; simpl; [reflexivity|]. intros H.
  destruct (is_space c) eqn:Hc; [|simpl; now rewrite Hc].
  apply andb_true_iff in H. now apply IH.
Qed.

Lemma tight_rstrip (s : string) : tight s = true -> tight (rstrip s) = true.
Proof.
  induction s as [|c s IH]; simpl; [reflexivity|]. intros H.
  apply andb_true_iff in H as [Hc Hs]. specialize (IH Hs).
  destruct (rstrip s) as [|d r] eqn:Hr.
  - destruct (is_space c) eqn:Hsp; simpl; [reflexivity|now rewrite Hsp].
  - cbn [tight]. cbn [tight] in IH. rewrite IH, andb_true_r.
    destruct (is_space c); [|reflexivity].
    apply andb_true_iff in Hc as [Heq Hl].
    assert (Hd : no_lead (String d r) = true) by (rewrite <- Hr; now apply rstrip_no_lead).
    now rewrite Heq, Hd.
Qed.

Lemma all_chars_squeeze (p : ascii -> bool) (s : string) :
  p " "%char = true -> all_chars p s = true ->
  forall in_run, all_chars p (squeeze in_run s) = true.
Proof.
  intros Hp. induction s as [|c s IH]; simpl; [reflexivity|]. intros H in_run.
  apply andb_true_iff in H as [Hc Hs].
  destruct (is_space c); [destruct in_run|]; simpl; rewrite ?Hp, ?Hc; simpl; auto.
Qed.

(** ** Blank lines *)

Lemma collapse_blank_drop (s : string) :
  forall k, collapse_blank k s = collapse_blank 0 (drop k s).
Proof.
  induction s as [|c s IH]; intros [|k]; simpl; auto.
Qed.

Lemma drop_length (s : string) : forall k, String.length (drop k s) <= String.length s.
Proof.
  induction s as [|c s IH]; intros [|k]; simpl; auto.
Qed.

Lemma blank_span_after (s : string) : blank_span (drop (blank_span s) s) = 0.
Proof.
  induction s as [|c s IH]; simpl; [reflexivity|].
  destruct (is_space c) eqn:Hc; [|simpl; now rewrite Hc].
  destruct (blank_span s) as [|k] eqn:Hk.
  - destruct (Ascii.eqb c newline) eqn:Hn; simpl; [assumption|].
    now rewrite Hc, Hk, Hn.
  - simpl. exact IH.
Qed.

Lemma blank_span_collapse (s : string) :
  blank_span s = 0 -> blank_span (collapse_blank 0 s) = 0.
Proof.
  induction s as [|c s IH]; simpl; [reflexivity|].
  destruct (is_space c) eqn:Hc.
  - destruct (blank_span s) as [|k] eqn:Hk; [|discriminate].
    destruct (Ascii.eqb c newline) eqn:Hn; [discriminate|]. intros _.
    simpl. now rewrite Hc, IH, Hn.
  - intros _. destruct (Ascii.eqb c newline) eqn:Hn.
    + apply newline_is_space in Hn. congruence.
    + simpl. now rewrite Hc.
Qed.

Lemma collapse_blank_calm_bounded (n : nat) :
  forall s, String.length s <= n -> calm (collapse_blank 0 s) = true.
Proof.
  induction n as [|n IH]; intros [|c s] Hn; simpl in *; try lia; auto.
  destruct (Ascii.eqb c newline) eqn:Hc.
  - rewrite collapse_blank_drop.
    pose proof (drop_length s (blank_span s)) as Hlen.
    simpl. rewrite blank_span_collapse by apply blank_span_after.
    rewrite IH by lia. reflexivity.
  - simpl. rewrite Hc. apply IH. lia.
Qed.

Lemma collapse_blank_calm (s : string) : calm (collapse_blank 0 s) = true.
Proof. now apply (collapse_blank_calm_bounded (String.length s)). Qed.


Lemma calm_lstrip (s : string) : calm s = true -> calm (lstrip s) = true.
Proof.
  induction s as [|c s IH]; simpl; [reflexivity|]. intros H.
  destruct (is_space c); [|exact H].
  apply andb_true_iff in H. now apply IH.
Qed.

Lemma blank_span_rstrip (s : string) : blank_span s = 0 -> blank_span (rstrip s) = 0.
Proof.
  induction s as [|c s IH]; simpl; [reflexivity|].
  destruct (is_space c) eqn:Hc.
  - destruct (blank_span s) as [|k] eqn:Hk; [|discriminate].
    destruct (Ascii.eqb c newline) eqn:Hn; [discriminate|]. intros _.
    destruct (rstrip s) as [|d r] eqn:Hr; [reflexivity|].
    cbn [blank_span]. cbn [blank_span] in IH. now rewrite Hc, IH, Hn.
  - intros _. destruct (rstrip s); simpl; now rewrite Hc.
Qed.

Lemma calm_rstrip (s : string) : calm s = true -> calm (rstrip s) = true.
Proof.
  induction s as [|c s IH]; simpl; [reflexivity|]. intros H.
  apply andb_true_iff in H as [Hc Hs]. specialize (IH Hs).
  destruct (rstrip s) as [|d r] eqn:Hr.
  - destruct (is_space c) eqn:Hsp; [reflexivity|]. simpl.
    now destruct (Ascii.eqb c newline).
  - cbn [calm]. cbn [calm] in IH. rewrite IH, andb_true_r.
    destruct (Ascii.eqb c newline); [|reflexivity].
    apply Nat.eqb_eq in Hc.
    assert (Hd : blank_span (String d r) = 0) by (rewrite <- Hr; now apply blank_span_rstrip).
    now rewrite Hd.
Qed.


(** ** Sanitizing text without markup *)

Lemma all_chars_impl (p q : ascii -> bool) (s : string) :
  (forall c, p c = true -> q c = true) -> all_chars p s = true -> all_chars q s = true.
Proof.
  intros Hpq. induction s as [|c s IH]; simpl; [reflexivity|]. intros H.
  apply andb_true_iff in H as [Hc Hs]. now rewrite (Hpq c Hc), IH.
Qed.

Lemma plain_char_spec (c : ascii) :
  plain_char c = true ->
  Ascii.eqb c "<"%char = false /\ Ascii.eqb c ">"%char = false /\ Ascii.eqb c "&"%char = false.
Proof.
  unfold plain_char. intros H. apply negb_true_iff in H.
  apply orb_false_iff in H as [H Ha]. apply orb_false_iff in H as [Hl Hg]. auto.
Qed.

Lemma ascii_space_is_space (c : ascii) : is_ascii_space c = true -> is_space c = true.
Proof.
  unfold is_ascii_space. intros H.
  repeat (apply orb_true_iff in H as [H|H]); apply N.eqb_eq in H;
    unfold is_space, in_range; rewrite H; reflexivity.
Qed.

Lemma lstrip_all_space (s : string) : all_chars is_space s = true -> lstrip s = "".
Proof.
  induction s as [|c s IH]; simpl; [reflexivity|]. intros H.
  apply andb_true_iff in H as [Hc Hs]. now rewrite Hc, IH.
Qed.


Lemma after_prefix_open_plain (p t : string) :
  markup_free t = true -> after_prefix (String "<"%char p) t = None.
Proof.
  destruct t as [|c t]; [reflexivity|]. intros H.
  unfold markup_free in H. cbn [all_chars] in H.
  apply andb_true_iff in H as [Hc _]. apply plain_char_spec in Hc as [Hl _].
  cbn [after_prefix]. rewrite Ascii.eqb_sym. now rewrite Hl.
Qed.

Lemma sub_at_end_plain (p t : string) :
  markup_free t = true -> sub_at_end (String "<"%char p) t = t.
Proof.
  induction t as [|c t IH]; [reflexivity|]. intros H.
  cbn [sub_at_end]. rewrite (after_prefix_open_plain p _ H).
  simpl in H. apply andb_true_iff in H as [_ Ht]. now rewrite IH.
Qed.

Lemma sub_div_end_plain (t : string) : markup_free t = true -> sub_div_end t = t.
Proof.
  induction t as [|c t IH]; [reflexivity|]. intros H.
  cbn [sub_div_end].
  rewrite (after_prefix_open_plain _ _ (all_chars_lstrip _ _ H)).
  simpl in H. apply andb_true_iff in H as [_ Ht]. now rewrite IH.
Qed.

Lemma escape_plain (t : string) : markup_free t = true -> escape t = t.
Proof.
  induction t as [|c t IH]; simpl; [reflexivity|]. intros H.
  apply andb_true_iff in H as [Hc Ht].
  apply plain_char_spec in Hc as (Hl & Hg & Ha).
  now rewrite Ha, Hl, Hg, IH.
Qed.

Lemma markup_free_normalise (x : string) :
  markup_free x = true -> markup_free (normalise_data false x) = true.
Proof.
  unfold normalise_data. intros H.
  destruct (all_chars is_ascii_space x); [|assumption].
  now destruct (char_in newline x).
Qed.

Lemma strip_normalise (x : string) : strip (normalise_data false x) = strip x.
Proof.
  unfold normalise_data.
  destruct (all_chars is_ascii_space x) eqn:Ha; [|reflexivity].
  unfold strip at 2.
  rewrite (lstrip_all_space x) by (revert Ha; apply all_chars_impl, ascii_space_is_space).
  now destruct (char_in newline x).
Qed.

Section SanitizerFacts.

Variable replace_charrefs : string -> string.

Lemma unescape_plain (t : string) : markup_free t = true -> unescape replace_charrefs t = t.
Proof.
  intros H. unfold unescape, char_in.
  rewrite (all_chars_impl plain_char _ t); [reflexivity| |assumption].
  intros c Hc. apply plain_char_spec in Hc as (_ & _ & Ha). now rewrite Ha.
Qed.

(** Text without markup is one string of data. *)
Lemma lex_plain (x : string) :
  markup_free x = true ->
  forall data, lex replace_charrefs InData data x = flush_data (data ++ x).
Proof.
  induction x as [|c x IH]; simpl; intros H data.
  - now rewrite append_empty_r.
  - apply andb_true_iff in H as [Hc Hx].
    apply plain_char_spec in Hc as (Hl & _ & Ha).
    unfold data_step. rewrite Hl, Ha, IH by assumption.
    unfold one. now rewrite append_assoc.
Qed.

Lemma parse_html_plain (x : string) :
  markup_free x = true -> truthy x = true ->
  parse_html replace_charrefs x = [Text (normalise_data false x)].
Proof.
  intros H Ht. unfold parse_html, tokens. rewrite lex_plain by assumption.
  simpl. unfold flush_data. now rewrite Ht.
Qed.

Lemma clean_html_plain (x : string) :
  markup_free x = true ->
  clean_html replace_charrefs x = strip (squeeze false (strip x)).
Proof.
  intros H. unfold clean_html.
  destruct (truthy x) eqn:Ht; [|now apply truthy_false in Ht; subst].
  cbn [negb]. rewrite parse_html_plain by assumption.
  assert (Hg : get_text [Text (normalise_data false x)] = strip x).
  { unfold get_text. cbn [flat_map strings app map filter].
    rewrite strip_normalise.
    destruct (truthy (strip x)) eqn:Hs; [reflexivity|].
    apply truthy_false in Hs. now rewrite Hs. }
  rewrite Hg, unescape_plain; [reflexivity|].
  apply all_chars_squeeze; [reflexivity|]. now apply all_chars_strip.
Qed.

Lemma clean_html_preserve_formatting_plain (x : string) :
  markup_free x = true ->
  clean_html_preserve_formatting replace_charrefs x
  = if truthy x then strip (collapse_blank 0 (normalise_data false x)) else "".
Proof.
  intros H. unfold clean_html_preserve_formatting.
  destruct (truthy x) eqn:Ht; [|reflexivity].
  cbn [negb]. rewrite parse_html_plain by assumption.
  pose proof (markup_free_normalise x H) as Hn.
  cbn [map first_pass flat_map second_pass app decode_all fold_right decode].
  rewrite append_empty_r, escape_plain by assumption.
  unfold sub_at_start. rewrite after_prefix_open_plain by assumption.
  rewrite sub_at_end_plain by assumption.
  unfold sub_div_start. rewrite after_prefix_open_plain by assumption.
  now rewrite sub_div_end_plain by assumption.
Qed.

End SanitizerFacts.

(** ** Sanitizing twice *)




(** * Further properties *)

(** ** The earlier reconciler *)

Lemma earlier_loop_result (rows : list row) :
  forall fuel i merged,
    i <= List.length rows ->
    List.length rows - i <= fuel ->
    while_loop (earlier_body rows) fuel (i, merged)
    = Some (List.length rows, (merged ++ attach_preceding (skipn i rows))%list).
Proof.
  induction fuel as [|fuel IH]; intros i merged Hi Hfuel.
  - replace i with (List.length rows) by lia. simpl.
    rewrite (proj2 (nth_error_None rows _)) by lia.
    now rewrite skipn_all, app_nil_r.
  - cbn [while_loop earlier_body]. rewrite Nat.add_1_r.
    destruct (nth_error rows i) as [r|] eqn:Hr; cursor_facts rows i.
    + cbn [attach_preceding].
      destruct (is_attachment r);
        [destruct (nth_error rows (S i)) as [next_row|] eqn:Hn; cursor_facts rows i;
           [destruct (is_content next_row)|]|];
        destruct (is_content r);
        rewrite IH by lia; rewrite <- ?app_assoc; cbn [app];
        rewrite ?(skipn_at _ _ _ Hn), ?(skipn_past _ _ Hn);
        repeat f_equal; lia.
    + replace i with (List.length rows) by lia.
      now rewrite ?skipn_all, app_nil_r.
Qed.

Lemma attach_preceding_fields_bounded (n : nat) :
  forall rows, List.length rows <= n ->
    map plain_fields (attach_preceding rows) = map row_fields (filter is_content rows).
Proof.
  induction n as [|n IH]; intros [|r rest] Hn; simpl in *; try lia; auto.
  destruct (is_attachment r) eqn:Ha.
  - rewrite (attachment_not_content _ Ha).
    destruct rest as [|next_row rest']; [reflexivity|].
    destruct (is_content next_row) eqn:Hc.
    + cbn [map filter]. rewrite Hc. cbn [map].
      rewrite with_attachment_fields, IH by (simpl in *; lia). reflexivity.
    + apply IH. lia.
  - destruct (is_content r); cbn [map]; rewrite IH by lia; reflexivity.
Qed.

(** X1.  The earlier reconciler returns on every sequence of rows; the rows
    it writes are the content rows of the input, each once and in input
    order, and the number it returns is the number of content rows. *)
Theorem earlier_reconciler_conservation (rows : list row) :
  exists merged,
    merge_attachments_to_posts rows = Some merged /\
    map plain_fields merged = map row_fields (filter is_content rows) /\
    List.length merged = List.length (filter is_content rows).
Proof.
  exists (attach_preceding rows).
  pose proof (attach_preceding_fields_bounded (List.length rows) rows (le_n _)) as Hf.
  repeat split.
  - unfold merge_attachments_to_posts. now rewrite earlier_loop_result by lia.
  - exact Hf.
  - apply (f_equal (@List.length _)) in Hf. now rewrite !length_map in Hf.
Qed.

(** ** The two reconcilers of attachments that follow *)



(** ** Review columns of the annotated table *)

Lemma paired_post_review (url_path : string -> string) (r a : row) :
  let m := paired_post url_path r a in
  (Merged.needs_review m = "YES" \/ Merged.needs_review m = "NO") /\
  (Merged.needs_review m = "NO" <-> Merged.review_reason m = "Good match") /\
  review_vocabulary (Merged.review_reason m).
Proof.
  unfold paired_post, review_vocabulary.
  destruct (check_match_quality_cases (title r) (get_filename url_path (attachment_url a)))
    as [E|[(g & Hg & E)|[E|E]]]; rewrite E; cbn.
  - split; [now left|]. split; [split; discriminate|now left].
  - split; [now left|]. split; [split; discriminate|]. right; left. now exists g.
  - split; [now right|]. split; [split; reflexivity|]. right; right; now left.
  - split; [now left|]. split; [split; discriminate|]. right; right; now right.
Qed.

Lemma pair_following_review (url_path : string -> string) (rows : list row)
    (m : Merged.merged_post) :
  In m (pair_following url_path rows) ->
  (Merged.needs_review m = "YES" \/ Merged.needs_review m = "NO") /\
  (Merged.needs_review m = "NO" <-> Merged.review_reason m = "Good match") /\
  review_vocabulary (Merged.review_reason m) /\
  Merged.attachment_filename m = get_filename url_path (Merged.attachment_url m).
Proof.
  intros Hin.
  destruct (pair_following_members_bounded url_path (List.length rows) rows m (le_n _) Hin)
    as [(r & _ & _ & ->)|(r & a & _ & _ & _ & _ & ->)].
  - cbn. split; [now left|]. split; [split; discriminate|]. split; [now left|reflexivity].
  - destruct (paired_post_review url_path r a) as (H1 & H2 & H3).
    repeat split; try assumption; try apply H2.
    destruct (paired_post_attachment url_path r a) as (Hu & _ & Hf). now rewrite Hf, Hu.
Qed.

(** X3.  In every row the corrected reconciler returns, the review flag is
    YES or NO, it is NO exactly when the reason is "Good match", the reason
    is one of the four the scorer knows, and the filename column is the
    file name of the attachment url column. *)
Theorem merged_rows_review_columns (url_path : string -> string) (rows : list row)
    (merged : list Merged.merged_post) (m : Merged.merged_post) :
  merge_attachments_corrected url_path rows = Some merged ->
  In m merged ->
  (Merged.needs_review m = "YES" \/ Merged.needs_review m = "NO") /\
  (Merged.needs_review m = "NO" <-> Merged.review_reason m = "Good match") /\
  review_vocabulary (Merged.review_reason m) /\
  Merged.attachment_filename m = get_filename url_path (Merged.attachment_url m).
Proof.
  rewrite merge_attachments_corrected_result. intros [= <-]. apply pair_following_review.
Qed.

Lemma merged_rows_review_columns_witness :
  let post_a := mk_row "1" "Summer BBQ Recap" "post" "" "" "/a" "" "" "" in
  let media_x := mk_row "2" "" "attachment" "" "" "" "" "" "summer-bbq-recap.jpg" in
  let m := paired_post (fun u => u) post_a media_x in
  merge_attachments_corrected (fun u => u) [post_a; media_x] = Some [m] /\
  Merged.needs_review m = "NO" /\
  Merged.review_reason m = "Good match" /\
  Merged.attachment_filename m = "summer-bbq-recap".
Proof.
  intros post_a media_x m.
  destruct (merged_rows_review_columns (fun u => u) [post_a; media_x] [m] m eq_refl
              (or_introl eq_refl)) as (_ & H2 & _ & _).
  split; [reflexivity|]. split; [apply H2; reflexivity|]. split; reflexivity.
Defined.

(** ** Statistics *)

Lemma filter_complement_length {A : Type} (f : A -> bool) (l : list A) :
  List.length (filter f l) + List.length (filter (fun x => negb (f x)) l) = List.length l.
Proof.
  induction l as [|a l IH]; simpl; [reflexivity|].
  destruct (f a); simpl; lia.
Qed.

Lemma bump_sum (reason : string) (d : list (string * nat)) :
  list_sum (map snd (Stats.bump reason d)) = S (list_sum (map snd d)).
Proof.
  induction d as [|[k n] d IH]; simpl; [reflexivity|].
  destruct (String.eqb reason k); simpl; lia.
Qed.

Lemma bump_keys (reason : string) (d : list (string * nat)) :
  NoDup (map fst d) ->
  NoDup (map fst (Stats.bump reason d)) /\
  (forall k, In k (map fst (Stats.bump reason d)) <-> k = reason \/ In k (map fst d)).
Proof.
  induction d as [|[k n] d IH]; simpl; intros Hd.
  - split; [repeat constructor; auto|]. intros k. split; intros [H|H]; auto; contradiction.
  - inversion Hd as [|? ? Hk Hd']; subst.
    destruct (String.eqb_spec reason k) as [->|Hne]; simpl.
    + split; [assumption|]. intros x. intuition (subst; auto).
    + destruct (IH Hd') as [Hn Hin]. split.
      * constructor; [|assumption]. rewrite Hin. intros [E|H]; [congruence|contradiction].
      * intros x. rewrite Hin. intuition (subst; auto).
Qed.

Lemma count_reasons_fold (posts : list Merged.merged_post) :
  forall d, NoDup (map fst d) ->
    let d' := fold_left (fun d p => Stats.bump (Merged.review_reason p) d) posts d in
    list_sum (map snd d') = List.length posts + list_sum (map snd d) /\
    NoDup (map fst d') /\
    (forall p, In p posts -> In (Merged.review_reason p) (map fst d')) /\
    (forall k, In k (map fst d) -> In k (map fst d')).
Proof.
  induction posts as [|p posts IH]; simpl; intros d Hd.
  - repeat split; auto. intros p [].
  - destruct (bump_keys (Merged.review_reason p) d Hd) as [Hn Hin].
    destruct (IH _ Hn) as (Hs & Hk & Hp & Hmono).
    rewrite Hs, bump_sum. repeat split; try assumption; try lia.
    + intros q [<-|Hq]; [|now apply Hp]. apply Hmono, Hin. now left.
    + intros k Hk'. apply Hmono, Hin. now right.
Qed.

(** X4.  The statistics of any annotated table add up: the rows with and
    without image make the total, the counts of the reasons make the total,
    no reason is counted under two keys, and every reason of the table has
    a key. *)
Theorem statistics_add_up (posts : list Merged.merged_post) :
  let s := Stats.print_statistics posts in
  Stats.total s = List.length posts /\
  Stats.with_images s + Stats.without_images s = Stats.total s /\
  list_sum (map snd (Stats.reasons s)) = Stats.total s /\
  NoDup (map fst (Stats.reasons s)) /\
  (forall p, In p posts -> In (Merged.review_reason p) (map fst (Stats.reasons s))).
Proof.
  cbn. split; [reflexivity|]. split; [apply filter_complement_length|].
  destruct (count_reasons_fold posts [] (NoDup_nil _)) as (Hs & Hk & Hp & _).
  cbn in Hs. rewrite Nat.add_0_r in Hs. auto.
Qed.

Lemma yes_no_counts (posts : list Merged.merged_post) :
  (forall m, In m posts -> Merged.needs_review m = "YES" \/ Merged.needs_review m = "NO") ->
  Stats.count (fun p => String.eqb (Merged.needs_review p) "YES") posts
  + Stats.count (fun p => String.eqb (Merged.needs_review p) "NO") posts
  = List.length posts.
Proof.
  unfold Stats.count. induction posts as [|p posts IH]; simpl; [reflexivity|]. intros H.
  specialize (IH (fun m Hm => H m (or_intror Hm))).
  destruct (H p (or_introl eq_refl)) as [E|E]; rewrite E; simpl; lia.
Qed.

(** X5.  On the rows the corrected reconciler returns, the rows that need
    review and the good matches make the total, and the good matches are
    the rows whose reason is "Good match". *)
Theorem review_statistics_add_up (url_path : string -> string) (rows : list row)
    (posts : list Merged.merged_post) :
  merge_attachments_corrected url_path rows = Some posts ->
  let s := Stats.print_statistics posts in
  Stats.needs_review s + Stats.good_matches s = Stats.total s /\
  Stats.good_matches s
  = Stats.count (fun p => String.eqb (Merged.review_reason p) "Good match") posts.
Proof.
  rewrite merge_attachments_corrected_result. intros [= <-]. cbn. split.
  - apply yes_no_counts. intros m Hin.
    now destruct (pair_following_review url_path rows m Hin).
  - unfold Stats.count. f_equal. apply filter_ext_in. intros m Hin.
    destruct (pair_following_review url_path rows m Hin) as (_ & [H1 H2] & _).
    destruct (String.eqb_spec (Merged.needs_review m) "NO") as [E|E];
      destruct (String.eqb_spec (Merged.review_reason m) "Good match") as [F|F];
      try reflexivity; exfalso; auto.
Qed.

Lemma review_statistics_add_up_witness :
  let post_a := mk_row "1" "Summer BBQ Recap" "post" "" "" "/a" "" "" "" in
  let media_x := mk_row "2" "" "attachment" "" "" "" "" "" "summer-bbq-recap.jpg" in
  let post_b := mk_row "3" "Lone" "page" "" "" "/b" "" "" "" in
  let posts := pair_following (fun u => u) [post_a; media_x; post_b] in
  merge_attachments_corrected (fun u => u) [post_a; media_x; post_b] = Some posts /\
  Stats.needs_review (Stats.print_statistics posts) = 1 /\
  Stats.good_matches (Stats.print_statistics posts) = 1 /\
  Stats.needs_review (Stats.print_statistics posts) + Stats.good_matches (Stats.print_statistics posts)
  = Stats.total (Stats.print_statistics posts).
Proof.
  intros post_a media_x post_b posts.
  split; [reflexivity|]. split; [reflexivity|]. split; [reflexivity|].
  exact (proj1 (review_statistics_add_up (fun u => u) [post_a; media_x; post_b] posts eq_refl)).
Defined.

(** ** Letter case *)

Lemma lower_char_idem (c : ascii) : lower_char (lower_char c) = lower_char c.
Proof. destruct c as [[] [] [] [] [] [] [] []]; reflexivity. Qed.

Lemma lower_idem (s : string) : lower (lower s) = lower s.
Proof.
  induction s as [|c s IH]; simpl; [reflexivity|]. now rewrite lower_char_idem, IH.
Qed.

Lemma lower_char_az09 (c : ascii) : is_az09 c = true -> lower_char c = c.
Proof. destruct c as [[] [] [] [] [] [] [] []]; intros H; try reflexivity; discriminate H. Qed.

Lemma lower_az09 (s : string) : all_chars is_az09 s = true -> lower s = s.
Proof.
  induction s as [|c s IH]; simpl; [reflexivity|]. intros H.
  apply andb_true_iff in H as [Hc Hs]. now rewrite lower_char_az09, IH.
Qed.

Lemma keep_chars_id (p : ascii -> bool) (s : string) :
  all_chars p s = true -> keep_chars p s = s.
Proof.
  induction s as [|c s IH]; simpl; [reflexivity|]. intros H.
  apply andb_true_iff in H as [Hc Hs]. now rewrite Hc, IH.
Qed.

Lemma simplify_text_idem (text : string) : simplify_text (simplify_text text) = simplify_text text.
Proof.
  unfold simplify_text.
  rewrite (lower_az09 (keep_chars is_az09 (lower text))) by apply keep_chars_all.
  apply keep_chars_id, keep_chars_all.
Qed.

Lemma truthy_lower (s : string) : truthy (lower s) = truthy s.
Proof. now destruct s. Qed.

(** X6.  The scorer does not see letter case, and it sees the title only
    through its letters and digits: the title and the filename in lower
    case, or the simplified title in place of the title, give the same
    result. *)
Theorem scorer_ignores_case_and_punctuation (title filename : string) :
  check_match_quality (lower title) (lower filename) = check_match_quality title filename /\
  check_match_quality (simplify_text title) filename = check_match_quality title filename.
Proof.
  unfold check_match_quality. split.
  - rewrite truthy_lower, lower_idem.
    unfold simplify_text. now rewrite !lower_idem.
  - now rewrite simplify_text_idem.
Qed.

Lemma str_in_empty (s : string) : str_in "" s = true.
Proof. now destruct s. Qed.

(** X7.  A title without any letter or digit, or a filename without any,
    is a good match: for a filename that is not empty and not generic the
    scorer then returns score 10 and asks for no review. *)
Theorem blank_title_is_good_match (title filename : string) :
  truthy filename = true ->
  find_generic generic_names (lower filename) = None ->
  simplify_text title = "" \/ simplify_text filename = "" ->
  check_match_quality title filename = (10, false, "Good match").
Proof.
  intros Hf Hg H. unfold check_match_quality. rewrite Hf, Hg. cbn [negb].
  destruct H as [-> | ->]; rewrite str_in_empty; [now rewrite orb_true_r|reflexivity].
Qed.

Lemma blank_title_is_good_match_witness :
  truthy "sunset-over-water" = true /\
  simplify_text "?!" = "" /\
  check_match_quality "?!" "sunset-over-water" = (10, false, "Good match").
Proof.
  split; [reflexivity|]. split; [reflexivity|].
  exact (blank_title_is_good_match "?!" "sunset-over-water" eq_refl eq_refl (or_introl eq_refl)).
Defined.

(** ** File names *)

Lemma lower_char_keeps (x : ascii) :
  lower_char x = x -> (forall c, lower_char c = x -> c = x) ->
  forall s, all_chars (not_char x) s = true -> all_chars (not_char x) (lower s) = true.
Proof.
  intros _ Hx. induction s as [|c s IH]; simpl; [reflexivity|]. intros H.
  apply andb_true_iff in H as [Hc Hs]. rewrite IH, andb_true_r by assumption.
  unfold not_char in *. apply negb_true_iff in Hc. apply negb_true_iff.
  destruct (Ascii.eqb_spec (lower_char c) x) as [E|E]; [|reflexivity].
  apply Hx in E. subst. now rewrite Ascii.eqb_refl in Hc.
Qed.

Lemma lower_char_slash (c : ascii) : lower_char c = "/"%char -> c = "/"%char.
Proof. destruct c as [[] [] [] [] [] [] [] []]; intros H; try reflexivity; discriminate H. Qed.

Lemma lower_char_newline (c : ascii) : lower_char c = newline -> c = newline.
Proof. destruct c as [[] [] [] [] [] [] [] []]; intros H; try reflexivity; discriminate H. Qed.

Lemma all_chars_app (p : ascii -> bool) (a b : string) :
  all_chars p (a ++ b) = all_chars p a && all_chars p b.
Proof.
  induction a as [|c a IH]; simpl; [reflexivity|]. now rewrite IH, andb_assoc.
Qed.

Lemma split_on_pieces (p : ascii -> bool) (sep : ascii) (s : string) :
  all_chars p s = true ->
  forall cur, all_chars p cur = true -> Forall (fun x => all_chars p x = true) (split_on sep cur s).
Proof.
  induction s as [|c s IH]; simpl; intros H cur Hcur; [now repeat constructor|].
  apply andb_true_iff in H as [Hc Hs].
  destruct (Ascii.eqb c sep).
  - constructor; [assumption|]. now apply IH.
  - apply IH; [assumption|]. rewrite all_chars_app, Hcur. simpl. now rewrite Hc.
Qed.

Lemma split_on_no_sep (sep : ascii) (s : string) :
  forall cur, all_chars (not_char sep) cur = true ->
    Forall (fun x => all_chars (not_char sep) x = true) (split_on sep cur s).
Proof.
  induction s as [|c s IH]; simpl; intros cur Hcur; [now repeat constructor|].
  destruct (Ascii.eqb c sep) eqn:E.
  - constructor; [assumption|]. now apply IH.
  - apply IH. rewrite all_chars_app, Hcur. simpl. unfold not_char. now rewrite E.
Qed.

Lemma last_Forall {A : Type} (P : A -> Prop) (l : list A) (d : A) :
  Forall P l -> P d -> P (last l d).
Proof.
  induction 1 as [|x l Hx Hl IH]; simpl; intros Hd; [assumption|].
  destruct l; [assumption|]. now apply IH.
Qed.

Lemma after_prefix_chars (p : ascii -> bool) (a s rest : string) :
  after_prefix a s = Some rest -> all_chars p s = true -> all_chars p rest = true.
Proof.
  revert s; induction a as [|x a IH]; intros [|c s]; simpl; try discriminate.
  - now intros [= <-].
  - now intros [= <-].
  - destruct (Ascii.eqb x c); [|discriminate]. intros H Hs.
    apply andb_true_iff in Hs as [_ Hs]. now apply (IH s).
Qed.

Lemma dotstar_eol_chars (p : ascii -> bool) (s r : string) :
  dotstar_eol s = Some r -> all_chars p s = true -> all_chars p r = true.
Proof.
  induction s as [|c s IH]; simpl.
  - now intros [= <-].
  - intros H Hs. pose proof Hs as Hs'. apply andb_true_iff in Hs' as [_ Ht].
    destruct (Ascii.eqb c newline); [|now apply IH].
    destruct (truthy s); [discriminate|]. now injection H as <-.
Qed.

Lemma match_alt_eol_chars (p : ascii -> bool) (s r : string) (alts : list string) :
  match_alt_eol alts s = Some r -> all_chars p s = true -> all_chars p r = true.
Proof.
  induction alts as [|a alts IH]; simpl; [discriminate|].
  destruct (after_prefix a s) as [rest|] eqn:Ha; [|exact IH].
  destruct (dotstar_eol rest) as [r'|] eqn:Hd; [|exact IH].
  intros [= <-] Hs. eapply dotstar_eol_chars; [exact Hd|].
  eapply after_prefix_chars; eauto.
Qed.

Lemma match_ext_inv (s r : string) :
  match_ext s = Some r ->
  exists s', s = String "."%char s' /\ match_alt_eol image_exts s' = Some r.
Proof.
  destruct s as [|c s]; [discriminate|].
  destruct (Ascii.eqb_spec c "."%char) as [->|Hne]; [intros H; now exists s|].
  intros H. exfalso. revert H.
  destruct c as [[] [] [] [] [] [] [] []]; try discriminate. now elim Hne.
Qed.

Lemma match_ext_chars (p : ascii -> bool) (s r : string) :
  match_ext s = Some r -> all_chars p s = true -> all_chars p r = true.
Proof.
  intros H Hs. apply match_ext_inv in H as (s' & -> & H).
  cbn [all_chars] in Hs. apply andb_true_iff in Hs as [_ Hs].
  eapply match_alt_eol_chars; eauto.
Qed.

Lemma sub_ext_chars (p : ascii -> bool) (s : string) :
  all_chars p s = true -> all_chars p (sub_ext s) = true.
Proof.
  induction s as [|c s IH]; intros H; cbn [sub_ext].
  - reflexivity.
  - destruct (match_ext (String c s)) as [r|] eqn:Hm.
    + eapply match_ext_chars; eauto.
    + simpl in *. apply andb_true_iff in H as [Hc Hs]. now rewrite Hc, IH.
Qed.

Lemma lower_fixed (s : string) :
  all_chars (fun c => Ascii.eqb (lower_char c) c) s = true <-> lower s = s.
Proof.
  induction s as [|c s IH]; simpl; [tauto|]. rewrite andb_true_iff, IH. split.
  - intros [Hc Hs]. apply Ascii.eqb_eq in Hc. now rewrite Hc, Hs.
  - intros [= Hc Hs]. rewrite Hc, Ascii.eqb_refl. auto.
Qed.

(** X8.  The file name taken from a URL holds no slash and no capital
    letter: it is its own lower-case form. *)
Theorem get_filename_shape (url_path : string -> string) (url : string) :
  all_chars (not_char "/"%char) (get_filename url_path url) = true /\
  lower (get_filename url_path url) = get_filename url_path url.
Proof.
  unfold get_filename. destruct (negb (truthy url)); [now split|].
  set (filename := last (split "/"%char (url_path url)) "").
  split.
  - apply sub_ext_chars.
    apply (lower_char_keeps "/"%char eq_refl lower_char_slash).
    apply (last_Forall (fun x => all_chars (not_char "/"%char) x = true));
      [apply split_on_no_sep|]; reflexivity.
  - apply lower_fixed, sub_ext_chars, lower_fixed, lower_idem.
Qed.

(** ** Image extensions *)

Lemma after_prefix_spec (p s rest : string) :
  after_prefix p s = Some rest <-> s = p ++ rest.
Proof.
  revert s; induction p as [|a p IH]; intros [|c s]; simpl.
  - split; [now intros [= <-]|now intros <-].
  - split; [now intros [= <-]|now intros <-].
  - split; discriminate.
  - destruct (Ascii.eqb_spec a c) as [->|Hne].
    + rewrite IH. split; [now intros ->|now intros [= ->]].
    + split; [discriminate|]. intros [= E _]. now elim Hne.
Qed.

Lemma prefix_spec (p s : string) :
  String.prefix p s = true <-> exists rest, s = p ++ rest.
Proof.
  revert s; induction p as [|a p IH]; intros [|c s]; simpl.
  - split; [now exists ""|reflexivity].
  - split; [now exists (String c s)|reflexivity].
  - split; [discriminate|]. intros [rest H]. discriminate H.
  - destruct (ascii_dec a c) as [->|Hne].
    + rewrite IH. split; intros [rest H]; exists rest; [now rewrite H|now injection H].
    + split; [discriminate|]. intros [rest [= E _]]. now elim Hne.
Qed.

Lemma prefix_cons (x c : ascii) (p s : string) :
  String.prefix (String x p) (String c s) = if Ascii.eqb x c then String.prefix p s else false.
Proof.
  cbn [String.prefix].
  destruct (ascii_dec x c) as [E|E]; destruct (Ascii.eqb_spec x c); congruence.
Qed.

Lemma after_prefix_none (p s : string) :
  after_prefix p s = None -> String.prefix p s = false.
Proof.
  intros H. destruct (String.prefix p s) eqn:E; [|reflexivity].
  apply prefix_spec in E as [rest E]. apply after_prefix_spec in E. congruence.
Qed.

Lemma dotstar_eol_one_line (s : string) :
  all_chars (not_char newline) s = true -> dotstar_eol s = Some "".
Proof.
  induction s as [|c s IH]; simpl; [reflexivity|]. intros H.
  apply andb_true_iff in H as [Hc Hs]. unfold not_char in Hc.
  apply negb_true_iff in Hc. rewrite Hc. now apply IH.
Qed.

Lemma match_alt_eol_one_line (alts : list string) (s : string) :
  all_chars (not_char newline) s = true ->
  (match_alt_eol alts s = Some "" \/
   (match_alt_eol alts s = None /\ forall a, In a alts -> String.prefix a s = false)).
Proof.
  intros Hs. induction alts as [|a alts IH]; simpl; [right; split; [reflexivity|now intros a []]|].
  destruct (after_prefix a s) as [rest|] eqn:Ha.
  - rewrite (dotstar_eol_one_line rest); [now left|].
    eapply after_prefix_chars; eauto.
  - destruct IH as [IH|[IH Hall]]; [now left|right]. split; [assumption|].
    intros x [<-|Hx]; [now apply after_prefix_none|now apply Hall].
Qed.

Lemma match_ext_one_line (s : string) :
  all_chars (not_char newline) s = true ->
  (match_ext s = Some "" \/
   (match_ext s = None /\ forall a, In a image_exts -> String.prefix ("." ++ a) s = false)).
Proof.
  intros Hs. destruct s as [|c s]; [right; split; [reflexivity|reflexivity]|].
  cbn [all_chars] in Hs. apply andb_true_iff in Hs as [_ Hs].
  destruct (Ascii.eqb_spec c "."%char) as [->|Hne].
  - destruct (match_alt_eol_one_line image_exts s Hs) as [H|[H Hall]]; [now left|right].
    split; [assumption|]. intros a Ha.
    change ("." ++ a) with (String "."%char a). rewrite prefix_cons, Ascii.eqb_refl.
    exact (Hall a Ha).
  - right. split.
    + destruct (match_ext (String c s)) as [r|] eqn:E; [|reflexivity].
      apply match_ext_inv in E as (s' & [= E _] & _). now elim Hne.
    + intros a _. change ("." ++ a) with (String "."%char a). rewrite prefix_cons.
      destruct (Ascii.eqb_spec "."%char c) as [E|_]; [|reflexivity].
      now elim Hne.
Qed.

Lemma prefix_sub_ext (s : string) :
  all_chars (not_char newline) s = true ->
  forall e, String.prefix e (sub_ext s) = true -> String.prefix e s = true.
Proof.
  induction s as [|c s IH]; intros Hs e; cbn [sub_ext].
  - now destruct e.
  - destruct (match_ext_one_line _ Hs) as [H|[H _]]; rewrite H.
    + destruct e; [reflexivity|discriminate].
    + cbn [all_chars] in Hs. apply andb_true_iff in Hs as [_ Hs].
      destruct e as [|a e]; [reflexivity|]. rewrite !prefix_cons.
      destruct (Ascii.eqb a c); [apply (IH Hs)|discriminate].
Qed.

Lemma sub_ext_one_line (s : string) :
  all_chars (not_char newline) s = true ->
  forall a, In a image_exts -> str_in ("." ++ a) (sub_ext s) = false.
Proof.
  induction s as [|c s IH]; intros Hs a Ha.
  - reflexivity.
  - pose proof (prefix_sub_ext _ Hs ("." ++ a)) as Hp. cbn [sub_ext] in *.
    destruct (match_ext_one_line _ Hs) as [H|[H Hall]]; rewrite H in *; [reflexivity|].
    cbn [all_chars] in Hs. apply andb_true_iff in Hs as [_ Hs].
    cbn [str_in]. rewrite (IH Hs a Ha), orb_false_r. unfold startswith.
    destruct (String.prefix ("." ++ a) (String c (sub_ext s))) eqn:E; [|reflexivity].
    rewrite <- (Hall a Ha). symmetry. now apply Hp.
Qed.

(** X9.  When the path of the URL holds no newline, the file name holds
    none of the image extensions [.jpg] [.jpeg] [.png] [.gif] [.webp]:
    everything from the first of them on is cut. *)
Theorem get_filename_without_extension (url_path : string -> string) (url ext : string) :
  all_chars (not_char newline) (url_path url) = true ->
  In ext image_exts ->
  str_in ("." ++ ext) (get_filename url_path url) = false.
Proof.
  intros Hp He. unfold get_filename. destruct (negb (truthy url)); [reflexivity|].
  apply sub_ext_one_line; [|assumption].
  apply (lower_char_keeps newline eq_refl lower_char_newline).
  apply (last_Forall (fun x => all_chars (not_char newline) x = true)); [|reflexivity].
  now apply split_on_pieces.
Qed.

Lemma get_filename_without_extension_witness :
  all_chars (not_char newline) "/media/2019/Dock.Sunset.JPG?format=500w" = true /\
  get_filename (fun u => u) "/media/2019/Dock.Sunset.JPG?format=500w" = "dock.sunset" /\
  str_in ".jpg" (get_filename (fun u => u) "/media/2019/Dock.Sunset.JPG?format=500w") = false.
Proof.
  split; [reflexivity|]. split; [reflexivity|].
  apply (get_filename_without_extension (fun u => u)
           "/media/2019/Dock.Sunset.JPG?format=500w" "jpg" eq_refl).
  now left.
Defined.

(** ** Fields between tags *)

Lemma prefix_app (p a b : string) :
  String.prefix p a = true -> String.prefix p (a ++ b) = true.
Proof.
  intros H. apply prefix_spec in H as [rest ->]. apply prefix_spec.
  exists (rest ++ b). apply append_assoc.
Qed.

Lemma lazy_until_sound (dotall : bool) (close s g : string) :
  close <> "" ->
  lazy_until dotall close s = Some g ->
  (exists post, s = g ++ close ++ post) /\
  str_in close g = false /\
  (dotall = false -> all_chars (not_char newline) g = true).
Proof.
  intros Hclose. revert g. induction s as [|c s IH]; intros g; cbn [lazy_until].
  - destruct (after_prefix close "") as [r|] eqn:Ha; [|discriminate].
    apply after_prefix_spec in Ha. destruct close; [now elim Hclose|discriminate].
  - destruct (after_prefix close (String c s)) as [r|] eqn:Ha.
    + intros [= <-]. apply after_prefix_spec in Ha. split; [now exists r|].
      split; [|reflexivity]. destruct close; [now elim Hclose|reflexivity].
    + destruct (negb dotall && Ascii.eqb c newline) eqn:Hd; [discriminate|].
      destruct (lazy_until dotall close s) as [g'|] eqn:Hl; [|discriminate].
      intros [= <-]. destruct (IH g' eq_refl) as ((post & Hs) & Hin & Hnl).
      split; [exists post; now rewrite Hs|]. split.
      * cbn [str_in]. rewrite Hin, orb_false_r. unfold startswith.
        destruct (String.prefix close (String c g')) eqn:Hp; [|reflexivity].
        apply (prefix_app _ _ (close ++ post)) in Hp.
        apply prefix_spec in Hp as [rest Hp]. cbn [append] in Hp. rewrite <- Hs in Hp.
        apply after_prefix_spec in Hp. congruence.
      * intros ->. cbn [all_chars]. rewrite (Hnl eq_refl), andb_true_r.
        unfold not_char. cbn [negb andb] in Hd. now rewrite Hd.
Qed.

Lemma lazy_until_here (dotall : bool) (close s rest : string) :
  after_prefix close s = Some rest -> lazy_until dotall close s = Some "".
Proof. intros H. destruct s; cbn [lazy_until]; now rewrite H. Qed.

Lemma lazy_until_complete (close a b : string) :
  lazy_until true close (a ++ close ++ b) <> None.
Proof.
  induction a as [|c a IH]; cbn [append lazy_until].
  - rewrite (lazy_until_here true close (close ++ b) b); [discriminate|].
    now apply after_prefix_spec.
  - destruct (after_prefix close _); [discriminate|]. cbn [negb andb].
    destruct (lazy_until true close (a ++ close ++ b)); [discriminate|contradiction].
Qed.

Lemma search_between_sound (dotall : bool) (open close s g : string) :
  close <> "" ->
  search_between dotall open close s = Some g ->
  (exists pre post, s = pre ++ open ++ g ++ close ++ post) /\
  str_in close g = false /\
  (dotall = false -> all_chars (not_char newline) g = true).
Proof.
  intros Hclose. induction s as [|c s IH]; cbn [search_between].
  - destruct (after_prefix open "") as [rest|] eqn:Ha; [|discriminate].
    destruct (lazy_until dotall close rest) as [g'|] eqn:Hl; [|discriminate].
    intros [= ->]. apply after_prefix_spec in Ha.
    destruct (lazy_until_sound _ _ _ _ Hclose Hl) as ((post & Hr) & H2 & H3).
    split; [exists "", post; cbn [append]; rewrite <- Hr; exact Ha|]. auto.
  - destruct (match after_prefix open (String c s) with
              | Some rest => lazy_until dotall close rest
              | None => None
              end) as [g'|] eqn:Hm.
    + intros [= ->]. destruct (after_prefix open (String c s)) as [rest|] eqn:Ha; [|discriminate].
      apply after_prefix_spec in Ha.
      destruct (lazy_until_sound _ _ _ _ Hclose Hm) as ((post & Hr) & H2 & H3).
      split; [exists "", post; cbn [append]; rewrite <- Hr; exact Ha|]. auto.
    + intros H. destruct (IH H) as ((pre & post & Hs) & H2 & H3).
      split; [exists (String c pre), post; now rewrite Hs|]. auto.
Qed.

Lemma search_between_complete (open close pre g post : string) :
  search_between true open close (pre ++ open ++ g ++ close ++ post) <> None.
Proof.
  induction pre as [|c pre IH].
  - cbn [append].
    assert (Ha : after_prefix open (open ++ g ++ close ++ post) = Some (g ++ close ++ post))
      by now apply after_prefix_spec.
    pose proof (lazy_until_complete close g post) as Hl.
    destruct (open ++ g ++ close ++ post) as [|c s]; cbn [search_between];
      rewrite Ha; destruct (lazy_until true close (g ++ close ++ post)); congruence.
  - cbn [append search_between].
    destruct (match after_prefix open _ with Some rest => _ | None => None end);
      [discriminate|exact IH].
Qed.

(** X10.  A field read between two tags stands between them in the item:
    the item is some text, the opening tag, the field, the closing tag and
    some text; the field does not hold the closing tag, and a field read
    without [re.DOTALL] holds no newline.  With [re.DOTALL] the search
    fails only on an item that has no opening tag followed by a closing
    tag. *)
Theorem search_between_delimited (dotall : bool) (open close s : string) :
  close <> "" ->
  (forall g, search_between dotall open close s = Some g ->
     (exists pre post, s = pre ++ open ++ g ++ close ++ post) /\
     str_in close g = false /\
     (dotall = false -> all_chars (not_char newline) g = true)) /\
  (search_between true open close s = None <->
   ~ exists pre g post, s = pre ++ open ++ g ++ close ++ post).
Proof.
  intros Hclose. split; [intros g; now apply search_between_sound|]. split.
  - intros H (pre & g & post & ->). now apply (search_between_complete open close pre g post).
  - intros H. destruct (search_between true open close s) as [g|] eqn:E; [|reflexivity].
    elim H. destruct (search_between_sound _ _ _ _ _ Hclose E) as ((pre & post & Hs) & _).
    now exists pre, g, post.
Qed.

Lemma search_between_delimited_witness :
  "</title>" <> "" /\
  search_title sample_item = Some "Summer BBQ Recap" /\
  exists pre post, sample_item = pre ++ "<title>" ++ "Summer BBQ Recap" ++ "</title>" ++ post.
Proof.
  split; [discriminate|]. split; [reflexivity|].
  destruct (search_between_delimited true "<title>" "</title>" sample_item) as [H _];
    [discriminate|].
  exact (proj1 (H "Summer BBQ Recap" eq_refl)).
Defined.

(** ** Identifiers *)

Lemma digits_until_digits (close s d : string) :
  digits_until close s = Some d -> all_chars is_digit d = true.
Proof.
  revert d. induction s as [|c s IH]; intros d; cbn [digits_until].
  - destruct (after_prefix close ""); [now intros [= <-]|discriminate].
  - destruct (is_digit c) eqn:Hc.
    + destruct (digits_until close s) as [d'|]; [|discriminate].
      intros [= <-]. cbn. now rewrite Hc, (IH d').
    + destruct (after_prefix close (String c s)); [now intros [= <-]|discriminate].
Qed.

Lemma search_digits_digits (open close s d : string) :
  search_digits open close s = Some d -> truthy d = true /\ all_chars is_digit d = true.
Proof.
  assert (Hhere : forall t,
            match after_prefix open t with
            | Some rest =>
                match digits_until close rest with
                | Some d0 => if truthy d0 then Some d0 else None
                | None => None
                end
            | None => None
            end = Some d -> truthy d = true /\ all_chars is_digit d = true).
  { intros t. destruct (after_prefix open t) as [rest|]; [|discriminate].
    destruct (digits_until close rest) as [d0|] eqn:Hd; [|discriminate].
    destruct (truthy d0) eqn:Ht; [|discriminate].
    intros [= <-]. split; [assumption|]. eapply digits_until_digits; eauto. }
  induction s as [|c s IH]; cbn [search_digits].
  - destruct (match after_prefix open "" with Some _ => _ | None => None end) eqn:E;
      [|discriminate]. intros [= <-]. now apply (Hhere "").
  - destruct (match after_prefix open (String c s) with Some _ => _ | None => None end) eqn:E;
      [|exact IH]. intros [= <-]. now apply (Hhere (String c s)).
Qed.

(** X11.  The post id both extractors give is made of decimal digits alone
    (it is empty when the item has no numeric id). *)
Theorem post_id_is_numeric (clean_html clean_html_preserve_formatting : string -> string)
    (item : string) :
  all_chars is_digit (post_id (XmlToCsv.extract_post clean_html item)) = true /\
  all_chars is_digit (post_id (Formatted.extract_post clean_html_preserve_formatting item)) = true.
Proof.
  cbn. unfold extract_post_id.
  destruct (search_digits "<wp:post_id>" "</wp:post_id>" item) as [d|] eqn:E; [|now split].
  apply search_digits_digits in E as [_ E]. now split.
Qed.

(** ** Length of the content column *)

Lemma length_app (a b : string) : String.length (a ++ b) = String.length a + String.length b.
Proof. induction a as [|c a IH]; simpl; [reflexivity|now rewrite IH]. Qed.

Lemma length_substring_start (n : nat) (s : string) :
  String.length (substring 0 n s) = Nat.min n (String.length s).
Proof.
  revert n. induction s as [|c s IH]; intros [|n]; simpl; auto.
Qed.

(** X12.  The content column of the plain extractor is never longer than
    1003 characters: sanitized text of up to 1000 characters is kept as it
    is, longer text is cut to its first 1000 characters followed by three
    dots. *)
Theorem content_is_bounded (clean_html : string -> string) (item : string) :
  String.length (content (XmlToCsv.extract_post clean_html item)) <= 1003 /\
  (forall c, search_content item = Some c ->
     (String.length (clean_html c) <= 1000 ->
      content (XmlToCsv.extract_post clean_html item) = clean_html c) /\
     (1000 < String.length (clean_html c) ->
      content (XmlToCsv.extract_post clean_html item) = substring 0 1000 (clean_html c) ++ "..." /\
      String.length (content (XmlToCsv.extract_post clean_html item)) = 1003)).
Proof.
  cbn [content XmlToCsv.extract_post]. unfold XmlToCsv.extract_content.
  destruct (search_content item) as [c|]; [|split; [simpl; lia|discriminate]].
  destruct (Nat.ltb_spec 1000 (String.length (clean_html c))) as [Hlt|Hle].
  - assert (Hlen : String.length (substring 0 1000 (clean_html c) ++ "...") = 1003).
    { rewrite length_app, length_substring_start.
      change (String.length "...") with 3. lia. }
    split; [lia|]. intros c' [= <-]. split; [lia|]. intros _. now split.
  - split; [lia|]. intros c' [= <-]. split; [reflexivity|lia].
Qed.

(** ** Items with a post name *)

(** X13.  An item without link field and with a post-name field is never
    dropped, and its link starts with a slash, in both extractors. *)
Theorem post_name_items_are_kept (clean_html clean_html_preserve_formatting : string -> string)
    (item name : string) :
  search_link item = None ->
  search_post_name item = Some name ->
  let p := XmlToCsv.extract_post clean_html item in
  let q := Formatted.extract_post clean_html_preserve_formatting item in
  startswith (link p) "/" = true /\ XmlToCsv.emit clean_html item = [p] /\
  startswith (link q) "/" = true /\ Formatted.emit clean_html_preserve_formatting item = [q].
Proof.
  intros Hl Hn p q.
  assert (Hp : startswith (link p) "/" = true).
  { subst p. cbn [link XmlToCsv.extract_post]. unfold XmlToCsv.extract_link. rewrite Hl, Hn.
    destruct (startswith (strip name) "/") eqn:E; [assumption|].
    destruct (_ || _); apply prefix_spec;
      [now exists (strip name)|now exists ("blogfeed/" ++ strip name)]. }
  assert (Hq : startswith (link q) "/" = true).
  { subst q. cbn [link Formatted.extract_post]. unfold Formatted.extract_link. rewrite Hl, Hn.
    destruct (startswith (strip name) "/") eqn:E; [assumption|].
    apply prefix_spec. now exists (strip name). }
  assert (Hkeep : forall r : row, startswith (link r) "/" = true -> has_some_data r = true).
  { intros r H. unfold has_some_data. destruct (link r); [discriminate|].
    now rewrite !orb_true_r. }
  repeat split; try assumption.
  - unfold XmlToCsv.emit. fold p. now rewrite (Hkeep p Hp).
  - unfold Formatted.emit. fold q. now rewrite (Hkeep q Hq).
Qed.

Lemma post_name_items_are_kept_witness :
  search_link name_only_item = None /\
  search_post_name name_only_item = Some "hello" /\
  XmlToCsv.emit (fun s => s) name_only_item = [XmlToCsv.extract_post (fun s => s) name_only_item] /\
  link (Formatted.extract_post (fun s => s) name_only_item) = "/hello".
Proof.
  destruct (post_name_items_are_kept (fun s => s) (fun s => s) name_only_item "hello"
              eq_refl eq_refl) as (_ & H & _ & _).
  split; [reflexivity|]. split; [reflexivity|]. split; [exact H|reflexivity].
Defined.

(** ** From the export to the merged rows *)

(** X14.  The rows [create_formatted_csv.py] writes are the kept posts and
    pages of the export, each once and in item order: an item gives a row
    exactly when its id, title or link is not empty and its type is post
    or page. *)
Theorem formatted_pipeline_conservation (clean_html_preserve_formatting : string -> string)
    (content : string) :
  exists merged,
    formatted_rows clean_html_preserve_formatting content = Some merged /\
    map plain_fields merged
    = map row_fields
        (filter (fun p => has_some_data p && is_content p)
           (map (Formatted.extract_post clean_html_preserve_formatting)
                (tl (re_split "<item>" content)))).
Proof.
  unfold formatted_rows, Formatted.parse_xml_with_formatting, Formatted.emit.
  rewrite (flat_map_keep (Formatted.extract_post clean_html_preserve_formatting) has_some_data).
  set (posts := map _ _).
  exists (attach_following (filter has_some_data posts)). split.
  - apply merge_with_attachments_result.
  - rewrite (attach_following_fields_bounded _ _ (le_n _)). f_equal.
    clear. induction posts as [|p posts IH]; simpl; [reflexivity|].
    destruct (has_some_data p); simpl; [destruct (is_content p)|]; now rewrite IH.
Qed.

(** ** Passes over the markup tree *)

Lemma node_induction (P : node -> Prop) :
  (forall s, P (Text s)) ->
  (forall name attrs children, Forall P children -> P (Tag name attrs children)) ->
  forall n, P n.
Proof.
  intros HText HTag. fix IH 1. intros [s|name attrs children]; [apply HText|apply HTag].
  induction children as [|x l IHl]; constructor; [apply IH|apply IHl].
Qed.

Lemma flat_map_nested {A B C : Type} (f : B -> list C) (g : A -> list B) (l : list A) :
  flat_map f (flat_map g l) = flat_map (fun x => flat_map f (g x)) l.
Proof.
  induction l as [|a l IH]; simpl; [reflexivity|]. now rewrite flat_map_app, IH.
Qed.

Lemma flat_map_pointwise {A B : Type} (f g : A -> list B) (l : list A) :
  Forall (fun x => f x = g x) l -> flat_map f l = flat_map g l.
Proof. induction 1 as [|x l Hx Hl IH]; simpl; [reflexivity|]. now rewrite Hx, IH. Qed.

Lemma map_pointwise {A B : Type} (f g : A -> B) (l : list A) :
  Forall (fun x => f x = g x) l -> map f l = map g l.
Proof. induction 1 as [|x l Hx Hl IH]; simpl; [reflexivity|]. now rewrite Hx, IH. Qed.

Lemma Forall_flat_map {A B : Type} (P : B -> Prop) (f : A -> list B) (l : list A) :
  Forall (fun x => Forall P (f x)) l -> Forall P (flat_map f l).
Proof.
  induction 1 as [|x l Hx Hl IH]; simpl; [constructor|]. apply Forall_app. now split.
Qed.

Lemma flat_map_after_map {A B C : Type} (f : B -> list C) (g : A -> B) (l : list A) :
  flat_map f (map g l) = flat_map (fun x => f (g x)) l.
Proof. induction l as [|a l IH]; simpl; [reflexivity|]. now rewrite IH. Qed.

Lemma map_after_flat_map {A B C : Type} (f : B -> C) (g : A -> list B) (l : list A) :
  map f (flat_map g l) = flat_map (fun x => map f (g x)) l.
Proof. induction l as [|a l IH]; simpl; [reflexivity|]. now rewrite map_app, IH. Qed.

Lemma second_pass_strings (n : node) : flat_map strings (second_pass n) = strings n.
Proof.
  induction n as [s|name attrs children IH] using node_induction; [reflexivity|].
  cbn [second_pass strings].
  assert (H : flat_map strings (flat_map second_pass children) = flat_map strings children).
  { rewrite flat_map_nested. now apply flat_map_pointwise. }
  destruct (to_unwrap name); [exact H|]. cbn. now rewrite H, app_nil_r.
Qed.

Lemma second_pass_allowed (n : node) :
  Forall (fun t => to_unwrap (fst t) = false) (flat_map tags (second_pass n)).
Proof.
  induction n as [s|name attrs children IH] using node_induction; [constructor|].
  cbn [second_pass].
  assert (H : Forall (fun t => to_unwrap (fst t) = false)
                (flat_map tags (flat_map second_pass children))).
  { rewrite flat_map_nested. now apply Forall_flat_map. }
  destruct (to_unwrap name) eqn:E; [exact H|].
  cbn. rewrite app_nil_r. now constructor.
Qed.

(** X15.  After the second pass no tag of the tree is [span] or outside
    the allowed set, and the strings of the tree are the strings it had, in
    the same order. *)
Theorem unwrap_keeps_text_and_allowed_tags (soup : list node) :
  Forall (fun t => to_unwrap (fst t) = false) (flat_map tags (flat_map second_pass soup)) /\
  Forall (fun t => In (fst t) allowed_tags /\ fst t <> "span")
    (flat_map tags (flat_map second_pass soup)) /\
  flat_map strings (flat_map second_pass soup) = flat_map strings soup.
Proof.
  assert (H : Forall (fun t => to_unwrap (fst t) = false)
                (flat_map tags (flat_map second_pass soup))).
  { rewrite flat_map_nested. apply Forall_flat_map, Forall_forall.
    intros n _. apply second_pass_allowed. }
  split; [exact H|]. split.
  - eapply Forall_impl; [|exact H]. intros [name attrs]. cbn. unfold to_unwrap.
    intros E. apply orb_false_iff in E as [Es Ea]. apply negb_false_iff in Ea. split.
    + unfold name_in in Ea. apply existsb_exists in Ea as (x & Hx & Ex).
      apply String.eqb_eq in Ex. now subst.
    + intros ->. discriminate Es.
  - rewrite flat_map_nested. apply flat_map_pointwise, Forall_forall.
    intros n _. apply second_pass_strings.
Qed.

Lemma get_attr_del (k k' : string) (attrs : list (string * string)) :
  get_attr k (del_attr k' attrs) = if String.eqb k k' then None else get_attr k attrs.
Proof.
  induction attrs as [|[x v] attrs IH]; simpl; [now destruct (String.eqb k k')|].
  destruct (String.eqb_spec k' x) as [->|Hx].
  - rewrite IH. destruct (String.eqb_spec k x); reflexivity.
  - simpl. rewrite IH.
    destruct (String.eqb_spec k x) as [->|]; [|reflexivity].
    destruct (String.eqb_spec x k'); congruence.
Qed.

Lemma del_attr_absent (k : string) (attrs : list (string * string)) :
  get_attr k attrs = None -> del_attr k attrs = attrs.
Proof.
  induction attrs as [|[x v] attrs IH]; simpl; [reflexivity|].
  destruct (String.eqb k x); [discriminate|]. intros H. now rewrite IH.
Qed.

Lemma delete_four_get (k : string) (attrs : list (string * string)) :
  get_attr k (delete_four attrs) = if name_in k deleted_attrs then None else get_attr k attrs.
Proof.
  unfold delete_four. rewrite !get_attr_del. cbn [name_in deleted_attrs existsb].
  destruct (String.eqb k "style"), (String.eqb k "class"),
    (String.eqb k "data-sqsp-text-block-content"), (String.eqb k "data-rte-preserve-empty");
    reflexivity.
Qed.

Lemma delete_four_idem (attrs : list (string * string)) :
  delete_four (delete_four attrs) = delete_four attrs.
Proof.
  unfold delete_four at 1.
  rewrite (del_attr_absent "style"), (del_attr_absent "class"),
    (del_attr_absent "data-sqsp-text-block-content"),
    (del_attr_absent "data-rte-preserve-empty");
    try reflexivity; now rewrite delete_four_get.
Qed.

Lemma strip_attrs_idem (name : string) (attrs : list (string * string)) :
  strip_attrs name (strip_attrs name attrs) = strip_attrs name attrs.
Proof.
  unfold strip_attrs. fold (delete_four attrs).
  destruct (String.eqb name "a"); [|apply delete_four_idem].
  destruct (get_attr "href" (delete_four attrs)) as [href|] eqn:E.
  - reflexivity.
  - fold (delete_four (delete_four attrs)). now rewrite delete_four_idem, E.
Qed.


Lemma first_pass_idem (n : node) : first_pass (first_pass n) = first_pass n.
Proof.
  induction n as [s|name attrs children IH] using node_induction; [reflexivity|].
  cbn. rewrite strip_attrs_idem, map_map. f_equal. now apply map_pointwise.
Qed.

Lemma second_pass_idem (n : node) : flat_map second_pass (second_pass n) = second_pass n.
Proof.
  induction n as [s|name attrs children IH] using node_induction; [reflexivity|].
  cbn [second_pass].
  assert (H : flat_map second_pass (flat_map second_pass children) = flat_map second_pass children).
  { rewrite flat_map_nested. now apply flat_map_pointwise. }
  destruct (to_unwrap name) eqn:E; [exact H|].
  cbn [flat_map second_pass]. now rewrite E, H.
Qed.

Lemma passes_commute (n : node) : map first_pass (second_pass n) = second_pass (first_pass n).
Proof.
  induction n as [s|name attrs children IH] using node_induction; [reflexivity|].
  cbn [second_pass first_pass].
  assert (H : map first_pass (flat_map second_pass children)
              = flat_map second_pass (map first_pass children)).
  { rewrite map_after_flat_map, flat_map_after_map. now apply flat_map_pointwise. }
  destruct (to_unwrap name); [exact H|]. cbn. now rewrite H.
Qed.

(** X17.  On the tree the two passes together are idempotent: cleaning the
    cleaned tree changes nothing. *)
Theorem tree_passes_idempotent (soup : list node) :
  let clean := fun l => flat_map second_pass (map first_pass l) in
  clean (clean soup) = clean soup.
Proof.
  cbn.
  assert (Hc : forall l, map first_pass (flat_map second_pass l)
                         = flat_map second_pass (map first_pass l)).
  { intros l. rewrite map_after_flat_map, flat_map_after_map.
    apply flat_map_ext. intros n. apply passes_commute. }
  rewrite Hc, map_map, flat_map_nested.
  rewrite (map_ext _ _ first_pass_idem).
  apply flat_map_ext. intros n. apply second_pass_idem.
Qed.

(** ** Sanitized text *)

(** X18.  On every input the result of either sanitizer has no whitespace
    at its start or end, and the empty input gives the empty result. *)
Theorem sanitizers_strip (replace_charrefs : string -> string) (x : string) :
  strip (clean_html replace_charrefs x) = clean_html replace_charrefs x /\
  strip (clean_html_preserve_formatting replace_charrefs x)
  = clean_html_preserve_formatting replace_charrefs x /\
  clean_html replace_charrefs "" = "" /\
  clean_html_preserve_formatting replace_charrefs "" = "".
Proof.
  unfold clean_html, clean_html_preserve_formatting.
  destruct (negb (truthy x)); repeat split; try reflexivity; apply strip_idem.
Qed.

(** ** Updating rows from the live pages *)

Section UpdateFacts.

Variable urljoin : string -> string -> string.
Variable resolve : string -> option string.





End UpdateFacts.




(** ** The decision table of the scorer *)

Lemma find_generic_some (names : list string) (filename_lower : string) :
  find_generic names filename_lower <> None <->
  exists generic, In generic names /\
    (filename_lower = generic \/ startswith filename_lower (generic ++ "_") = true).
Proof.
  induction names as [|g names IH]; simpl.
  - split; [congruence|]. now intros (x & [] & _).
  - destruct (String.eqb_spec filename_lower g) as [->|Hne]; cbn [orb].
    + split; [|discriminate]. intros _. exists g. auto.
    + destruct (startswith filename_lower (g ++ "_")) eqn:Hs.
      * split; [|discriminate]. intros _. exists g. auto.
      * rewrite IH. split; intros (x & Hx & H).
        -- exists x. auto.
        -- destruct Hx as [<-|Hx]; [|exists x; auto].
           destruct H as [H|H]; congruence.
Qed.

(** X21.  The four outcomes of the scorer, each with the inputs that give
    it: score 0 for the empty filename; score 1 for a filename that is not
    empty and is generic; score 10 for one that is neither, when one
    simplified string holds the other; score 2 in every other case. *)
Theorem scorer_decision_table (title filename : string) :
  let score := score_of (check_match_quality title filename) in
  let generic := is_generic_name filename in
  let contained :=
    str_in (simplify_text filename) (simplify_text title)
    || str_in (simplify_text title) (simplify_text filename) = true in
  (score = 0 <-> filename = "") /\
  (score = 1 <-> filename <> "" /\ generic) /\
  (score = 10 <-> filename <> "" /\ ~ generic /\ contained) /\
  (score = 2 <-> filename <> "" /\ ~ generic /\ ~ contained).
Proof.
  cbv zeta. unfold is_generic_name, check_match_quality.
  pose proof (find_generic_some generic_names (lower filename)) as Hg.
  destruct filename as [|c f]; cbn [truthy negb].
  - cbn. repeat split; try discriminate; intros H; try tauto; now destruct H.
  - set (fn := String c f) in *.
    assert (Hfn : fn <> "") by discriminate.
    destruct (find_generic generic_names (lower fn)) as [g|] eqn:E.
    + assert (G : exists generic, In generic generic_names /\
                  (lower fn = generic \/ startswith (lower fn) (generic ++ "_") = true))
        by (apply Hg; discriminate).
      cbn. repeat split; try discriminate; try tauto; intros H; try congruence; tauto.
    + assert (G : ~ exists generic, In generic generic_names /\
                  (lower fn = generic \/ startswith (lower fn) (generic ++ "_") = true))
        by (intros H; apply Hg in H; congruence).
      destruct (str_in (simplify_text fn) (simplify_text title)
                || str_in (simplify_text title) (simplify_text fn)) eqn:Hc.
      * cbn. repeat split; try discriminate; try tauto; intros H; try congruence; tauto.
      * rewrite (partial_match_simplified title fn Hc).
        cbn. repeat split; try discriminate; try tauto;
          intros H; try congruence; try tauto; destruct H as (_ & _ & H); congruence.
Qed.

(** ** Tables without attachment rows *)

Lemma no_attachment_rows (url_path : string -> string) (rows : list row) :
  forallb (fun r => negb (is_attachment r)) rows = true ->
  map plain_of (pair_following url_path rows) = attach_preceding rows.
Proof.
  induction rows as [|r rest IH]; [reflexivity|]. intros H.
  cbn [forallb] in H. apply andb_true_iff in H as [Hr Hrest]. apply negb_true_iff in Hr.
  specialize (IH Hrest). cbn [pair_following attach_preceding]. rewrite Hr.
  destruct (is_content r); [|exact IH].
  destruct rest as [|next_row rest']; [reflexivity|].
  cbn [forallb] in Hrest. apply andb_true_iff in Hrest as [Hn _]. apply negb_true_iff in Hn.
  rewrite Hn. cbn [map]. now rewrite IH.
Qed.

(** X22.  On a table that holds no attachment row the earlier and the
    corrected reconciler write the same rows: every post and page, without
    attachment. *)
Theorem reconcilers_agree_without_attachments (url_path : string -> string) (rows : list row) :
  forallb (fun r => negb (is_attachment r)) rows = true ->
  exists merged,
    merge_attachments_corrected url_path rows = Some merged /\
    merge_attachments_to_posts rows = Some (map plain_of merged) /\
    Forall (fun m => Merged.attachment_url m = "" /\ Merged.attachment_id m = "") merged.
Proof.
  intros H. exists (pair_following url_path rows). split; [|split].
  - apply merge_attachments_corrected_result.
  - unfold merge_attachments_to_posts. rewrite earlier_loop_result by lia.
    cbn [option_map snd app skipn]. f_equal. symmetry. now apply no_attachment_rows.
  - apply Forall_forall. intros m Hm.
    destruct (pair_following_members_bounded url_path _ rows m (le_n _) Hm)
      as [(r & _ & _ & ->)|(r & a & _ & Ha & _ & Hatt & _)]; [now split|].
    rewrite forallb_forall in H. specialize (H a Ha). rewrite Hatt in H. discriminate H.
Qed.

Lemma reconcilers_agree_without_attachments_witness :
  let post_a := mk_row "1" "A" "post" "" "" "/a" "" "" "" in
  let page_b := mk_row "2" "B" "page" "" "" "/b" "" "" "" in
  forallb (fun r => negb (is_attachment r)) [post_a; page_b] = true /\
  exists merged,
    merge_attachments_corrected (fun u => u) [post_a; page_b] = Some merged /\
    merge_attachments_to_posts [post_a; page_b] = Some (map plain_of merged).
Proof.
  intros post_a page_b. split; [reflexivity|].
  destruct (reconcilers_agree_without_attachments (fun u => u) [post_a; page_b] eq_refl)
    as (merged & H1 & H2 & _).
  exists merged. auto.
Defined.

(** ** Whitespace of sanitized text *)

(** X23.  On text without markup characters the plain-text sanitizer gives
    the text with every run of whitespace turned into one space and none
    at the ends; the formatting-preserving sanitizer gives the text without
    blank lines and with no whitespace at the ends. *)
Theorem sanitized_text_whitespace (replace_charrefs : string -> string) (x : string) :
  markup_free x = true ->
  clean_html replace_charrefs x = strip (squeeze false (strip x)) /\
  tight (clean_html replace_charrefs x) = true /\
  no_lead (clean_html replace_charrefs x) = true /\
  calm (clean_html_preserve_formatting replace_charrefs x) = true /\
  no_lead (clean_html_preserve_formatting replace_charrefs x) = true.
Proof.
  intros H. rewrite (clean_html_plain replace_charrefs x H).
  rewrite (clean_html_preserve_formatting_plain replace_charrefs x H).
  split; [reflexivity|]. split; [apply tight_rstrip, tight_lstrip, squeeze_shape|].
  split; [apply strip_no_lead|].
  destruct (truthy x); [|now split]. split.
  - apply calm_rstrip, calm_lstrip, collapse_blank_calm.
  - apply strip_no_lead.
Qed.

Lemma sanitized_text_whitespace_witness :
  markup_free text_sample = true /\
  clean_html (fun s => s) text_sample = "Notes from the dock Bring a towel." /\
  tight (clean_html (fun s => s) text_sample) = true.
Proof.
  destruct (sanitized_text_whitespace (fun s => s) text_sample eq_refl) as (_ & H & _).
  split; [reflexivity|]. split; [reflexivity|exact H].
Defined.

(** ** The earlier resolver *)

Lemma first_source_verbatim (img : option img_tag) (u : string) :
  ScrapeV1.first_source img = Some u ->
  truthy u = true /\ exists i, img = Some i /\ (data_src i = Some u \/ src i = Some u).
Proof.
  unfold ScrapeV1.first_source. destruct img as [i|]; [|discriminate].
  destruct (attr_truthy (data_src i)) eqn:Hd.
  - intros E. rewrite E in Hd. split; [exact Hd|]. exists i. auto.
  - destruct (attr_truthy (src i)) eqn:Hs; [|discriminate].
    intros E. rewrite E in Hs. split; [exact Hs|]. exists i. auto.
Qed.

(** X24.  What the resolver of [scrape_images.py] returns is never empty
    and is taken as it stands from the page: the [data-src] or [src]
    attribute of an [img] element one of its three selectors found, or the
    content of the og:image tag. *)
Theorem earlier_resolver_verbatim (page : soup) (u : string) :
  ScrapeV1.get_header_image (Some page) = Some u ->
  truthy u = true /\
  ((exists selector i, select_one page selector = Some i /\
      (data_src i = Some u \/ src i = Some u)) \/
   og_image page = Some (Some u)).
Proof.
  unfold ScrapeV1.get_header_image.
  destruct (ScrapeV1.try_methods page _) as [v|] eqn:E.
  - intros [= ->]. revert E.
    generalize [".blog-item-top-wrapper img"; "article img, .sqs-block-image img";
                ".blog-item-content-wrapper img"] as sels.
    induction sels as [|selector sels IH]; cbn [ScrapeV1.try_methods]; [discriminate|].
    destruct (ScrapeV1.first_source (select_one page selector)) as [w|] eqn:Hw; [|exact IH].
    intros [= ->]. apply first_source_verbatim in Hw as (Ht & i & Hi & Hu).
    split; [exact Ht|]. left. now exists selector, i.
  - unfold meta_content. destruct (og_image page) as [[c|]|]; try discriminate.
    destruct (truthy c) eqn:Ht; [|discriminate]. intros [= ->]. auto.
Qed.

Lemma earlier_resolver_verbatim_witness :
  ScrapeV1.get_header_image (Some icon_page) = Some "/assets/icon.png" /\
  truthy "/assets/icon.png" = true.
Proof.
  split; [reflexivity|].
  exact (proj1 (earlier_resolver_verbatim icon_page "/assets/icon.png" eq_refl)).
Defined.
